(** * Process sampler and signal display: a shallow embedding

    The two polling utilities [monitor_performance.py] and
    [monitor_signals.py] are embedded function by function.  Python
    [float]s are IEEE binary64 values, so they are modelled by the
    primitive floats of the prover, which are the same format; Python
    [int]s are modelled by [Z]; dictionaries with a fixed key set by
    records, the header-driven rows of [csv.DictReader] by [gmap].

    A [str] is modelled by the [string] of the bytes of its UTF-8
    encoding, which is how the text literals of this file are read.
    Concatenation, equality, [<] (UTF-8 keeps the order of the code
    points) and the search for an ASCII text work on the bytes; what
    counts characters ([len], the width of a format field, a slice) or
    looks at what a character is ([float]) goes through the code
    points. *)

From Stdlib Require Import ZArith String Ascii List Floats Lia Sorted.
From stdpp Require Import gmap strings list.
Set Warnings "-inexact-float".
Open Scope string_scope.
Open Scope list_scope.
Open Scope Z_scope.

(** ** Python run-time library: number formatting and parsing *)


Definition digit_char (d : Z) : ascii :=
  ascii_of_nat (48 + Z.to_nat d).

Fixpoint decimal_go (fuel : nat) (n : Z) (acc : string) : string :=
  match fuel with
  | O => acc
  | S fuel' =>
      let acc' := String (digit_char (n mod 10)) acc in
      if n / 10 =? 0 then acc' else decimal_go fuel' (n / 10) acc'
  end.

Definition decimal (n : Z) : string :=
  decimal_go (S (Z.to_nat (Z.log2 n))) n "".

Fixpoint fixed_digits (k : nat) (n : Z) (acc : string) : string :=
  match k with
  | O => acc
  | S k' => fixed_digits k' (n / 10) (String (digit_char (n mod 10)) acc)
  end.

Definition round_half_even (num den : Z) : Z :=
  let q := num / den in
  let r := num mod den in
  match 2 * r ?= den with
  | Lt => q
  | Gt => q + 1
  | Eq => if Z.even q then q else q + 1
  end.

Definition scaled (places : nat) (m : positive) (e : Z) : Z :=
  let p := 10 ^ Z.of_nat places in
  if 0 <=? e then Z.pos m * 2 ^ e * p
  else round_half_even (Z.pos m * p) (2 ^ (- e)).

Definition fixed_point (places : nat) (q : Z) : string :=
  let p := 10 ^ Z.of_nat places in
  decimal (q / p) +:+
  match places with
  | O => ""
  | _ => String "." (fixed_digits places (q mod p) "")
  end.

Definition sign_prefix (s : bool) : string := if s then "-" else "".

Definition format_f (places : nat) (x : float) : string :=
  match Prim2SF x with
  | S754_nan => "nan"
  | S754_infinity s => sign_prefix s +:+ "inf"
  | S754_zero s => sign_prefix s +:+ fixed_point places 0
  | S754_finite s m e => sign_prefix s +:+ fixed_point places (scaled places m e)
  end.


(** *** The characters of a [str] *)

Definition byte (c : ascii) : Z := Z.of_nat (nat_of_ascii c).

(** The bytes [10xxxxxx], which continue a character. *)
Definition continuation (c : ascii) : bool :=
  (128 <=? byte c) && (byte c <? 192).

Definition low6 (c : ascii) : Z := byte c - 128.

(** The code points of a text.  Bytes that are not the UTF-8 encoding of a
    text (a stray or missing continuation byte, an overlong form, a
    surrogate, a value above U+10FFFF) stand for no [str]: [None]. *)
Fixpoint code_points (s : string) : option (list Z) :=
  match s with
  | EmptyString => Some []
  | String c0 s1 =>
      let b0 := byte c0 in
      if b0 <? 128 then cons b0 <$> code_points s1
      else if b0 <? 192 then None
      else if b0 <? 224 then
        match s1 with
        | String c1 s2 =>
            let ch := (b0 - 192) * 64 + low6 c1 in
            if continuation c1 && (128 <=? ch)
            then cons ch <$> code_points s2 else None
        | _ => None
        end
      else if b0 <? 240 then
        match s1 with
        | String c1 (String c2 s3) =>
            let ch := ((b0 - 224) * 64 + low6 c1) * 64 + low6 c2 in
            if continuation c1 && continuation c2 && (2048 <=? ch)
               && negb ((55296 <=? ch) && (ch <=? 57343))
            then cons ch <$> code_points s3 else None
        | _ => None
        end
      else
        match s1 with
        | String c1 (String c2 (String c3 s4)) =>
            let ch := (((b0 - 240) * 64 + low6 c1) * 64 + low6 c2) * 64 + low6 c3 in
            if continuation c1 && continuation c2 && continuation c3
               && (65536 <=? ch) && (ch <=? 1114111)
            then cons ch <$> code_points s4 else None
        | _ => None
        end
  end.

(** [len(s)]: the number of characters, one for each byte that is not a
    continuation byte. *)
Fixpoint len (s : string) : nat :=
  match s with
  | EmptyString => 0
  | String c s' => if continuation c then len s' else S (len s')
  end.

(** *** [float(s)] for a [str] *)

Definition is_digit (c : ascii) : bool :=
  let n := nat_of_ascii c in (48 <=? n)%nat && (n <=? 57)%nat.

Definition digit_val (c : ascii) : Z := Z.of_nat (nat_of_ascii c) - 48.

(** [Py_ISSPACE]: the six ASCII white-space characters, which [float]
    strips from both ends.  The separators 0x1c to 0x1f are not among
    them. *)
Definition is_space (c : ascii) : bool :=
  let n := nat_of_ascii c in
  ((9 <=? n)%nat && (n <=? 13)%nat) || (n =? 32)%nat.

(** [Py_UNICODE_ISSPACE]: the white space of Unicode. *)
Definition unicode_isspace (ch : Z) : bool :=
  ((0x09 <=? ch) && (ch <=? 0x0D)) || ((0x1C <=? ch) && (ch <=? 0x20))
  || (ch =? 0x85) || (ch =? 0xA0) || (ch =? 0x1680)
  || ((0x2000 <=? ch) && (ch <=? 0x200A))
  || (ch =? 0x2028) || (ch =? 0x2029) || (ch =? 0x202F) || (ch =? 0x205F)
  || (ch =? 0x3000).

(** The decimal digits of Unicode 14.0 (CPython 3.11) come in runs of ten,
    from zero to nine; these are the zeros. *)
Definition decimal_zeros : list Z :=
  [0x30; 0x660; 0x6F0; 0x7C0; 0x966; 0x9E6; 0xA66; 0xAE6; 0xB66; 0xBE6; 0xC66;
   0xCE6; 0xD66; 0xDE6; 0xE50; 0xED0; 0xF20; 0x1040; 0x1090; 0x17E0; 0x1810;
   0x1946; 0x19D0; 0x1A80; 0x1A90; 0x1B50; 0x1BB0; 0x1C40; 0x1C50; 0xA620;
   0xA8D0; 0xA900; 0xA9D0; 0xA9F0; 0xAA50; 0xABF0; 0xFF10; 0x104A0; 0x10D30;
   0x11066; 0x110F0; 0x11136; 0x111D0; 0x112F0; 0x11450; 0x114D0; 0x11650;
   0x116C0; 0x11730; 0x118E0; 0x11950; 0x11C50; 0x11D50; 0x11DA0; 0x16A60;
   0x16AC0; 0x16B50; 0x1D7CE; 0x1D7D8; 0x1D7E2; 0x1D7EC; 0x1D7F6; 0x1E140;
   0x1E2F0; 0x1E950; 0x1FBF0].

(** [Py_UNICODE_TODECIMAL]: the value of a decimal digit. *)
Definition unicode_todecimal (ch : Z) : option Z :=
  match List.find (fun zero => (zero <=? ch) && (ch <=? zero + 9)) decimal_zeros with
  | Some zero => Some (ch - zero)
  | None => None
  end.

(** [_PyUnicode_TransformDecimalAndSpaceToASCII]: an ASCII text is taken as
    it is; in another text the characters from 127 on become a space when they
    are white space and an ASCII digit when they are decimal digits, and the
    first one that is neither becomes a question mark, which ends the text. *)
Fixpoint transform (text : list Z) : string :=
  match text with
  | [] => ""
  | ch :: rest =>
      if ch <? 127 then String (ascii_of_nat (Z.to_nat ch)) (transform rest)
      else if unicode_isspace ch then String " " (transform rest)
      else match unicode_todecimal ch with
           | Some d => String (ascii_of_nat (48 + Z.to_nat d)) (transform rest)
           | None => "?"
           end
  end.

Definition transform_decimal_and_space_to_ascii (s : string) : option string :=
  text ← code_points s;
  Some (if forallb (fun ch => ch <? 128) text then s else transform text).

(** [s.lower()] on the ASCII letters.  [str.lower] also maps the letters
    beyond ASCII, to letters beyond ASCII but for two: U+212A gives [k], and
    U+0130 gives [i] followed by U+0307.  The program lowers a text only to
    look for one of nine ASCII words in it; none has a [k] and none ends in
    [i], so the searches give what they give after [str.lower]. *)
Definition lower_char (c : ascii) : ascii :=
  let n := nat_of_ascii c in
  if (65 <=? n)%nat && (n <=? 90)%nat then ascii_of_nat (n + 32) else c.

Fixpoint lower (s : string) : string :=
  match s with
  | EmptyString => EmptyString
  | String c s' => String (lower_char c) (lower s')
  end.

Fixpoint lstrip (s : string) : string :=
  match s with
  | String c s' => if is_space c then lstrip s' else s
  | EmptyString => EmptyString
  end.

Fixpoint rstrip (s : string) : string :=
  match s with
  | String c s' =>
      match rstrip s' with
      | EmptyString => if is_space c then EmptyString else String c EmptyString
      | t => String c t
      end
  | EmptyString => EmptyString
  end.

Definition strip (s : string) : string := rstrip (lstrip s).

Fixpoint digits_rest (s : string) (v k : Z) : Z * Z * string :=
  match s with
  | String c s' =>
      if is_digit c then digits_rest s' (10 * v + digit_val c) (k + 1)
      else if Ascii.eqb c "_" then
        match s' with
        | String d s'' =>
            if is_digit d then digits_rest s'' (10 * v + digit_val d) (k + 1)
            else (v, k, s)
        | EmptyString => (v, k, s)
        end
      else (v, k, s)
  | EmptyString => (v, k, s)
  end.

Definition digitpart (s : string) (v : Z) : option (Z * Z * string) :=
  match s with
  | String c s' =>
      if is_digit c then Some (digits_rest s' (10 * v + digit_val c) 1) else None
  | EmptyString => None
  end.

Definition take_sign (s : string) : bool * string :=
  match s with
  | String "-" s' => (true, s')
  | String "+" s' => (false, s')
  | _ => (false, s)
  end.

(* mantissa digits, number of fractional digits, rest *)
Definition number (s : string) : option (Z * Z * string) :=
  match digitpart s 0 with
  | Some (v, _, String "." r) =>
      match digitpart r v with
      | Some res => Some res
      | None => Some (v, 0, r)
      end
  | Some (v, _, r) => Some (v, 0, r)
  | None =>
      match s with
      | String "." r => digitpart r 0
      | _ => None
      end
  end.

Definition exponent (s : string) : option Z :=
  match s with
  | EmptyString => Some 0
  | String c r =>
      if Ascii.eqb (lower_char c) "e" then
        let '(neg, r') := take_sign r in
        match digitpart r' 0 with
        | Some (x, _, EmptyString) => Some (if neg then - x else x)
        | _ => None
        end
      else None
  end.

Definition decimal_to_float (neg : bool) (v e10 : Z) : float :=
  match v with
  | Z.pos m =>
      if 0 <=? e10
      then SF2Prim (binary_normalize prec emax ((if neg then - v else v) * 10 ^ e10) 0 neg)
      else SF2Prim (SFdiv prec emax (S754_finite neg m 0)
                          (S754_finite false (Z.to_pos (10 ^ (- e10))) 0))
  | _ => if neg then neg_zero else zero
  end.

(** [float(s)]: [None] stands for [ValueError]. *)
Definition float_of_str (s : string) : option float :=
  ascii ← transform_decimal_and_space_to_ascii s;
  let '(neg, body) := take_sign (strip ascii) in
  let word := lower body in
  if String.eqb word "inf" || String.eqb word "infinity"
  then Some (if neg then neg_infinity else infinity)
  else if String.eqb word "nan" then Some nan
  else
    match number body with
    | Some (v, k, r) =>
        match exponent r with
        | Some x => Some (decimal_to_float neg v (x - k))
        | None => None
        end
    | None => None
    end.


(** [needle in hay] on strings: substring test. *)
Fixpoint contains (needle hay : string) : bool :=
  String.prefix needle hay ||
  match hay with
  | String _ hay' => contains needle hay'
  | EmptyString => false
  end.

(** Exceptions that the modelled code can raise. [KeyboardInterrupt] is
    the only one that is not a subclass of [Exception]. *)
Inductive exn :=
| FileNotFoundError
| ValueError
| TypeError
| OverflowError
| OtherException
| KeyboardInterrupt.

Inductive result (A : Type) :=
| Ok (a : A)
| Raise (e : exn).
Arguments Ok {A} a.
Arguments Raise {A} e.

#[global] Instance result_ret : MRet result := fun A a => Ok a.

#[global] Instance result_bind : MBind result := fun A B k r =>
  match r with
  | Ok a => k a
  | Raise e => Raise e
  end.

(** A Python number: [int] or [float]. *)
Inductive pynumber :=
| Int (z : Z)
| Float (x : float).

(** [float(z)] for an [int]: the nearest binary64 value (ties to even),
    [OverflowError] when it is out of range. *)
Definition float_of_int (z : Z) : result float :=
  match binary_normalize prec emax z 0 false with
  | S754_infinity _ => Raise OverflowError
  | x => Ok (SF2Prim x)
  end.

(** [z / d] on two [int]s ([d > 0]): the correctly rounded quotient. *)
Definition int_true_divide (z d : Z) : result float :=
  let q :=
    match z with
    | Z0 => S754_zero false
    | Z.pos m => SFdiv prec emax (S754_finite false m 0) (S754_finite false (Z.to_pos d) 0)
    | Z.neg m => SFdiv prec emax (S754_finite true m 0) (S754_finite false (Z.to_pos d) 0)
    end in
  match q with
  | S754_infinity _ => Raise OverflowError
  | x => Ok (SF2Prim x)
  end.

(** The three operations [format_size] applies to its argument, with the
    right operand the [int] literal [1024]. *)
Definition num_lt_1024 (b : pynumber) : bool :=
  match b with
  | Int z => z <? 1024
  | Float x => PrimFloat.ltb x 1024%float
  end.

Definition num_div_1024 (b : pynumber) : result pynumber :=
  match b with
  | Int z => x ← int_true_divide z 1024; Ok (Float x)
  | Float x => Ok (Float (x / 1024)%float)
  end.

Definition num_format_f (places : nat) (b : pynumber) : result string :=
  match b with
  | Int z => x ← float_of_int z; Ok (format_f places x)
  | Float x => Ok (format_f places x)
  end.

(** ** monitor_performance.py *)

(** The [proc.info] dictionary that [psutil.process_iter] fills in.  A key
    read with [.get(key, default)] is an [option] ([None]: key absent);
    [cmdline] is [None] where psutil could not read it. *)
Record proc_info := {
  info_name : string;
  info_cmdline : option (list string);
  info_status : option string;
  info_cpu_percent : option float;
  info_memory_percent : option float
}.

Record process := {
  pid : Z;
  info : proc_info
}.

Definition get {A} (o : option A) (default : A) : A :=
  match o with
  | Some a => a
  | None => default
  end.

Definition str_in (s : string) (l : list string) : bool :=
  existsb (String.eqb s) l.

Definition should_show_process (proc_info : proc_info) : bool :=
  let status := get (info_status proc_info) "" in
  let cpu := get (info_cpu_percent proc_info) 0%float in
  let mem := get (info_memory_percent proc_info) 0%float in
  negb (str_in status ["stopped"; "dead"; "zombie"]) ||
  PrimFloat.ltb 0.1%float cpu ||
  PrimFloat.ltb 0.1%float mem.

Definition rig_path : string := "/root/RIGnew".

(** [cmdline and any(f(cmd) for cmd in cmdline)], as a truth value. *)
Definition cmdline_any (cmdline : option (list string)) (f : string -> bool) : bool :=
  match cmdline with
  | Some ((_ :: _) as args) => existsb f args
  | _ => false
  end.

(** The first [any((...))] of the loop body. *)
Definition relevant (p : process) : bool :=
  let cmdline := info_cmdline (info p) in
  let name := lower (info_name (info p)) in
  cmdline_any cmdline (fun cmd => contains rig_path cmd) ||
  contains "python" name ||
  contains "rig" (lower name) ||
  contains "rust" (lower name) ||
  contains "cargo" (lower name) ||
  cmdline_any cmdline (fun cmd => contains "crypto-agents" (lower cmd)) ||
  cmdline_any cmdline (fun cmd => contains "monitor" (lower cmd)) ||
  cmdline_any cmdline (fun cmd => contains ".rs" (lower cmd)).

(** The second check, on [cmdline[0]]. *)
Definition specific_executable (p : process) : bool :=
  match info_cmdline (info p) with
  | Some (arg0 :: _) =>
      let executable := lower arg0 in
      contains "target/release" executable ||
      contains "target/debug" executable ||
      contains "crypto-agents" executable
  | _ => false
  end.

(** One iteration of the [for proc in psutil.process_iter(...)] loop. *)
Definition visit (rig_processes : list process) (proc : process) : list process :=
  let rig_processes :=
    if relevant proc && should_show_process (info proc)
    then rig_processes ++ [proc] else rig_processes in
  if specific_executable proc && should_show_process (info proc)
  then rig_processes ++ [proc] else rig_processes.

(** The loop that removes duplicates based on the pid. *)
Fixpoint remove_duplicates (rig_processes : list process)
    (seen_pids : gset Z) (unique_processes : list process) : list process :=
  match rig_processes with
  | [] => unique_processes
  | proc :: rest =>
      if decide (pid proc ∈ seen_pids)
      then remove_duplicates rest seen_pids unique_processes
      else remove_duplicates rest ({[pid proc]} ∪ seen_pids) (unique_processes ++ [proc])
  end.

(** [get_rig_processes], given what [psutil.process_iter] enumerates. *)
Definition get_rig_processes (process_iter : list process) : list process :=
  let rig_processes := fold_left visit process_iter [] in
  remove_duplicates rig_processes ∅ [].

Fixpoint format_size_loop (units : list string) (bytes : pynumber) : result string :=
  match units with
  | unit :: units' =>
      if num_lt_1024 bytes
      then s ← num_format_f 2 bytes; Ok (s +:+ unit)
      else bytes' ← num_div_1024 bytes; format_size_loop units' bytes'
  | [] => s ← num_format_f 2 bytes; Ok (s +:+ "TB")
  end.

Definition format_size (bytes : pynumber) : result string :=
  format_size_loop ["B"; "KB"; "MB"; "GB"] bytes.

(** ** monitor_signals.py *)

Definition format_price (price : float) : string :=
  if PrimFloat.eqb price 0 then "No data"
  else if PrimFloat.ltb price 0.01 then "$" +:+ format_f 8 price
  else if PrimFloat.ltb price 1 then "$" +:+ format_f 4 price
  else "$" +:+ format_f 2 price.

(** The market cap is a number computed elsewhere; an [int] below 2^53 and
    the float of the same value give the same quotients, so it is a float
    here. *)
Definition format_market_cap (market_cap : float) : string :=
  if PrimFloat.eqb market_cap 0 then "No data"
  else if PrimFloat.leb 1000000000 market_cap
  then "$" +:+ format_f 2 (market_cap / 1000000000) +:+ "B"
  else if PrimFloat.leb 1000000 market_cap
  then "$" +:+ format_f 2 (market_cap / 1000000) +:+ "M"
  else "$" +:+ format_f 2 (market_cap / 1000) +:+ "K".

Definition format_percentage (percentage : float) : string :=
  if PrimFloat.eqb percentage 0 then "N/A"
  else if PrimFloat.ltb 0 percentage then "+" +:+ format_f 2 percentage +:+ "%"
  else format_f 2 percentage +:+ "%".

(** A value read from the CSV file: a [str], or Python's [None], which
    [csv.DictReader] stores for the missing fields of a short row. *)
Definition cell := option string.

(** One row of [csv.DictReader]: a dictionary keyed by the header. *)
Abbreviation row := (gmap string cell).

(** [float(row.get(key, 0))]: the default [0] converts to [0.0], [None]
    raises [TypeError], an unparsable string raises [ValueError]. *)
Definition float_field (r : row) (key : string) : result float :=
  match r !! key with
  | None => Ok 0%float
  | Some None => Raise TypeError
  | Some (Some s) =>
      match float_of_str s with
      | Some x => Ok x
      | None => Raise ValueError
      end
  end.

(** An entry of the [signals] list.  The [int] zero of the exception
    handler is stored as the float zero: [==], [<], [>] and the [f] format,
    the only operations applied to the two numeric fields, do not tell them
    apart. *)
Record signal := {
  timestamp : cell;
  name : cell;
  symbol : cell;
  price : float;
  change_24h : float;
  recommendation : cell
}.

(** The [try ... except (ValueError, TypeError)] around the two conversions. *)
Definition parse_numbers (r : row) : result (float * float) :=
  match (price ← float_field r "price";
         change_24h ← float_field r "change_24h";
         Ok (price, change_24h)) with
  | Ok pc => Ok pc
  | Raise ValueError | Raise TypeError => Ok (0%float, 0%float)
  | Raise e => Raise e
  end.

(** The body of [for row in reader]. *)
Definition read_row (r : row) : result signal :=
  '(price, change_24h) ← parse_numbers r;
  Ok {| timestamp := get (r !! "timestamp") (Some "");
        name := get (r !! "name") (Some "");
        symbol := get (r !! "symbol") (Some "");
        price := price;
        change_24h := change_24h;
        recommendation := get (r !! "recommendation") (Some "") |}.

Fixpoint read_signals (reader : list row) (signals : list signal) : result (list signal) :=
  match reader with
  | [] => Ok signals
  | r :: reader' =>
      s ← read_row r;
      read_signals reader' (signals ++ [s])
  end.

(** [a < b] on two sort keys; [None] is not ordered. *)
Definition key_lt (a b : cell) : result bool :=
  match a, b with
  | Some s, Some t => Ok (String.ltb s t)
  | _, _ => Raise TypeError
  end.

(** [signals.sort(key=lambda x: x['timestamp'], reverse=True)] is a stable
    sort into descending key order: entries with equal keys keep their
    relative order.  The result of a stable sort does not depend on the
    algorithm; insertion from the right is used here.  Like the library
    sort, it compares every key at least once as soon as there are two
    entries, so a [None] key raises [TypeError]. *)
Fixpoint insert_desc (x : signal) (sorted : list signal) : result (list signal) :=
  match sorted with
  | [] => Ok [x]
  | y :: rest =>
      lt ← key_lt (timestamp x) (timestamp y);
      if lt : bool
      then rest' ← insert_desc x rest; Ok (y :: rest')
      else Ok (x :: sorted)
  end.

Fixpoint sort_by_timestamp_desc (signals : list signal) : result (list signal) :=
  match signals with
  | [] => Ok []
  | x :: signals' =>
      sorted ← sort_by_timestamp_desc signals';
      insert_desc x sorted
  end.

(** The loop that keeps the first entry of every token name. *)
Fixpoint latest_loop (signals : list signal) (seen_tokens : gset cell)
    (latest_signals : list signal) : list signal :=
  match signals with
  | [] => latest_signals
  | s :: rest =>
      if decide (name s ∉ seen_tokens)
      then latest_loop rest ({[name s]} ∪ seen_tokens) (latest_signals ++ [s])
      else latest_loop rest seen_tokens latest_signals
  end.

(** Lines 45 to 73: from the rows of the reader to [latest_signals]. *)
Definition latest_signals (reader : list row) : result (list signal) :=
  signals ← read_signals reader [];
  sorted ← sort_by_timestamp_desc signals;
  Ok (latest_loop sorted ∅ []).

(** *** Display *)

(** What a run writes to the terminal, in order.  [ErrorLine e] is the line
    ["Error: " + str(e)]; the text of [str(e)] is not modelled. *)
Inductive event :=
| ClearScreen
| Print (line : string)
| ErrorLine (e : exn)
| Sleep (seconds : Z).

(** Computations that print and may raise: the events so far and the outcome. *)
Definition io (A : Type) : Type := list event * result A.

#[global] Instance io_ret : MRet io := fun A a => ([], Ok a).

#[global] Instance io_bind : MBind io := fun A B k m =>
  match m with
  | (out, Ok a) => let '(out', r) := k a in (out ++ out', r)
  | (out, Raise e) => (out, Raise e)
  end.

Definition emit (e : event) : io unit := ([e], Ok tt).
Definition print (line : string) : io unit := emit (Print line).
Definition lift {A} (r : result A) : io A := ([], r).

(** colorama's escape sequences. *)
Definition esc : string := String (ascii_of_nat 27) "[".
Definition Fore_GREEN : string := esc +:+ "32m".
Definition Fore_RED : string := esc +:+ "31m".
Definition Fore_CYAN : string := esc +:+ "36m".
Definition Style_RESET_ALL : string := esc +:+ "0m".

Definition newline : string := String (ascii_of_nat 10) "".

Fixpoint repeat_str (s : string) (n : nat) : string :=
  match n with
  | O => ""
  | S n' => s +:+ repeat_str s n'
  end.

(** The format specification [:<width] on a [str]. *)
Definition ljust (width : nat) (s : string) : string :=
  s +:+ repeat_str " " (width - len s).

(** [f"{c:<width}"] on a cell: [None] does not accept a format specification. *)
Definition format_cell (width : nat) (c : cell) : result string :=
  match c with
  | Some s => Ok (ljust width s)
  | None => Raise TypeError
  end.

(** Lines 88 to 93: the change column. *)
Definition format_change (change_24h : float) : string :=
  if PrimFloat.ltb 0 change_24h
  then Fore_GREEN +:+ "+" +:+ format_f 2 change_24h +:+ "%" +:+ Style_RESET_ALL
  else if PrimFloat.ltb change_24h 0
  then Fore_RED +:+ format_f 2 change_24h +:+ "%" +:+ Style_RESET_ALL
  else Style_RESET_ALL +:+ "0.00%" +:+ Style_RESET_ALL.

Definition cell_is (c : cell) (s : string) : bool :=
  match c with
  | Some t => String.eqb t s
  | None => false
  end.

(** Lines 96 to 104: the colour of the row and the change column after the
    recommendation was looked at. *)
Definition colour_and_change (s : signal) : string * string :=
  let change_str := format_change (change_24h s) in
  if cell_is (recommendation s) "NEW LISTING"
  then (Fore_CYAN, Fore_CYAN +:+ "NEW" +:+ Style_RESET_ALL)
  else if cell_is (recommendation s) "BUY" then (Fore_GREEN, change_str)
  else if cell_is (recommendation s) "SELL" then (Fore_RED, change_str)
  else (Style_RESET_ALL, change_str).

(** The body of [for signal in latest_signals[:20]]. *)
Definition display_signal (s : signal) : io unit :=
  let price_str := format_price (price s) in
  let '(color, change_str) := colour_and_change s in
  name_col ← lift (format_cell 20 (name s));
  rec_col ← lift (format_cell 12 (recommendation s));
  print (color +:+ name_col +:+ " " +:+ ljust 15 price_str +:+ " " +:+ rec_col
         +:+ Style_RESET_ALL +:+ " " +:+ ljust 15 change_str +:+ " 12:03:05").

Fixpoint display_signals (signals : list signal) : io unit :=
  match signals with
  | [] => mret tt
  | s :: rest => display_signal s;; display_signals rest
  end.

(** Lines 76 to 108: the table. *)
Definition display_table (latest_signals : list signal) : io unit :=
  emit ClearScreen;;
  print (newline +:+ "🤖 Latest Trading Signals - 2025-02-02");;
  print "📊 Last Update: 12:03:05";;
  print (repeat_str "=" 100);;
  print (ljust 20 "Token" +:+ " " +:+ ljust 15 "Price" +:+ " " +:+ ljust 12 "Signal"
         +:+ " " +:+ ljust 12 "1h Change" +:+ " " +:+ ljust 10 "Time");;
  print (repeat_str "-" 100);;
  display_signals (take 20 latest_signals);;
  print (newline +:+ repeat_str "=" 100).

(** The [try] block of [read_and_display_signals].  [file] is what opening
    and reading [analysis_results.csv] gives at this moment: the rows, or the
    exception raised ([FileNotFoundError] when the file is missing). *)
Definition display_body (file : result (list row)) : io unit :=
  reader ← lift file;
  latest ← lift (latest_signals reader);
  display_table latest.

(** [except FileNotFoundError] and [except Exception as e]:
    [KeyboardInterrupt] is not an [Exception] and passes through. *)
Definition is_Exception (e : exn) : bool :=
  match e with
  | KeyboardInterrupt => false
  | _ => true
  end.

Definition read_and_display_signals (file : result (list row)) : io unit :=
  match display_body file with
  | (out, Ok tt) => (out, Ok tt)
  | (out, Raise FileNotFoundError) =>
      (out ++ [Print "Error: analysis_results.csv not found"], Ok tt)
  | (out, Raise e) =>
      if is_Exception e then (out ++ [ErrorLine e], Ok tt) else (out, Raise e)
  end.

(** [main]: [while True: read_and_display_signals(); time.sleep(5)].
    [files i] is the state of the input file at refresh [i].  The loop has no
    exit of its own: [iterations] bounds how much of the run is observed, and
    the outcome is [Ok tt] when the loop is still running after that. *)
Fixpoint main_loop (iterations : nat) (files : nat -> result (list row)) (i : nat) : io unit :=
  match iterations with
  | O => mret tt
  | S iterations' =>
      read_and_display_signals (files i);;
      emit (Sleep 5);;
      main_loop iterations' files (S i)
  end.

Definition main (iterations : nat) (files : nat -> result (list row)) : io unit :=
  main_loop iterations files 0.

(** The [if __name__ == "__main__"] block: [main()] inside
    [try ... except KeyboardInterrupt]. *)
Definition run_signals (iterations : nat) (files : nat -> result (list row)) : io unit :=
  match main iterations files with
  | (out, Raise KeyboardInterrupt) =>
      (out ++ [Print (newline +:+ "Monitoring stopped by user")], Ok tt)
  | outcome => outcome
  end.

(** ** monitor_performance.py: the sampling loop *)

(** String operations of the loop body. *)
Fixpoint join (sep : string) (parts : list string) : string :=
  match parts with
  | [] => ""
  | [part] => part
  | part :: rest => part +:+ sep +:+ join sep rest
  end.

(** [s.split(sep)] for a separator of one character. *)
Fixpoint split (sep : ascii) (s : string) : list string :=
  match s with
  | EmptyString => [""]
  | String c s' =>
      if Ascii.eqb c sep then "" :: split sep s'
      else match split sep s' with
           | part :: rest => String c part :: rest
           | [] => [String c ""]
           end
  end.

(** [s[:n]]: the first [n] characters, each with its continuation bytes. *)
Fixpoint str_take (n : nat) (s : string) : string :=
  match s with
  | EmptyString => ""
  | String c s' =>
      if continuation c then String c (str_take n s')
      else match n with
           | O => ""
           | S n' => String c (str_take n' s')
           end
  end.

(** The format specification [:>width] on a [str]. *)
Definition rjust (width : nat) (s : string) : string :=
  repeat_str " " (width - len s) +:+ s.

(** [str(z)] for an [int]. *)
Definition format_int (z : Z) : string :=
  if z <? 0 then "-" +:+ decimal (- z) else decimal z.

(** Lines 134 to 145: the name shown for a process.  [proc.cmdline()] is
    read twice, for the test and for the text. *)
Definition shorten (name : string) : string :=
  if (40 <? len name)%nat then
    let parts := split "/" name in
    let name :=
      if (1 <? length parts)%nat
      then ".../" +:+ join "/" (drop (length parts - 2) parts)
      else name in
    if (40 <? len name)%nat then str_take 37 name +:+ "..." else name
  else name.

(** The two errors of psutil that the loop catches. *)
Inductive psutil_error :=
| NoSuchProcess
| AccessDenied.

(** What a statement of the [with proc.oneshot()] block comes to: a value,
    an error of psutil, or another exception. *)
Inductive attempt (A : Type) :=
| Got (a : A)
| Psutil (e : psutil_error)
| Fails (e : exn).
Arguments Got {A} a.
Arguments Psutil {A} e.
Arguments Fails {A} e.

#[global] Instance attempt_ret : MRet attempt := fun A a => Got a.

#[global] Instance attempt_bind : MBind attempt := fun A B k m =>
  match m with
  | Got a => k a
  | Psutil e => Psutil e
  | Fails e => Fails e
  end.

Definition of_result {A} (r : result A) : attempt A :=
  match r with
  | Ok a => Got a
  | Raise e => Fails e
  end.

(** What the calls on a process answer during one pass. *)
Record probes := {
  probe_cpu_percent : attempt float;
  probe_memory_percent : attempt float;
  probe_rss : attempt Z;
  probe_num_threads : attempt Z;
  probe_status : attempt string;
  probe_cmdline : attempt (list string);
  probe_cmdline_again : attempt (list string);
  probe_name : attempt string
}.

(** One record of the CSV log, as handed to [writer.writerow]. *)
Record log_row := {
  log_timestamp : string;
  log_name : string;
  log_pid : Z;
  log_cpu_percent : float;
  log_memory_percent : float;
  log_memory_used : string;
  log_threads : Z;
  log_status : string
}.

Inductive csv_record :=
| Header (columns : list string)
| Data (r : log_row).

Inductive perf_event :=
| PClear
| PPrint (line : string)
| PWrite (record : csv_record)
| PFlush
| PSleep (seconds : Z).

(** The variables of one pass of the [while] loop. *)
Record pass_state := {
  total_cpu : float;
  total_memory : float;
  active_processes : Z;
  events : list perf_event
}.

Definition status_color (status : string) : string :=
  if String.eqb status "running" then esc +:+ "92m"
  else if String.eqb status "sleeping" then esc +:+ "94m"
  else esc +:+ "0m".

(** The statements of the [with] block that can raise: lines 127 to 145. *)
Definition measure (timestamp : string) (proc : process) (pr : probes) : attempt log_row :=
  cpu_percent ← probe_cpu_percent pr;
  memory_percent ← probe_memory_percent pr;
  rss ← probe_rss pr;
  memory_used ← of_result (format_size (Int rss));
  threads ← probe_num_threads pr;
  status ← probe_status pr;
  cmdline ← probe_cmdline pr;
  name ← match cmdline with
          | _ :: _ => cmdline ← probe_cmdline_again pr; Got (shorten (join " " cmdline))
          | [] => probe_name pr
          end;
  Got {| log_timestamp := timestamp; log_name := name; log_pid := pid proc;
         log_cpu_percent := cpu_percent; log_memory_percent := memory_percent;
         log_memory_used := memory_used; log_threads := threads;
         log_status := status |}.

Definition process_line (r : log_row) : string :=
  ljust 40 (log_name r) +:+ " " +:+ ljust 8 (format_int (log_pid r)) +:+ " "
  +:+ rjust 6 (format_f 1 (log_cpu_percent r)) +:+ "% "
  +:+ rjust 8 (format_f 1 (log_memory_percent r)) +:+ "% "
  +:+ rjust 11 (log_memory_used r) +:+ " " +:+ rjust 7 (format_int (log_threads r))
  +:+ " " +:+ status_color (log_status r) +:+ ljust 10 (log_status r)
  +:+ esc +:+ "0m".

(** Lines 147 to 167: what the block does once the measures are there. *)
Definition record_process (st : pass_state) (r : log_row) : pass_state :=
  {| total_cpu := total_cpu st + log_cpu_percent r;
     total_memory := total_memory st + log_memory_percent r;
     active_processes :=
       if PrimFloat.ltb 0 (log_cpu_percent r) || PrimFloat.ltb 0 (log_memory_percent r)
       then active_processes st + 1 else active_processes st;
     events := events st ++ [PWrite (Data r); PPrint (process_line r)] |}.

(** [for proc in processes]: an error of psutil skips the process, another
    exception leaves the loop. *)
Fixpoint sample_all (timestamp : string) (sample : process -> probes)
    (processes : list process) (st : pass_state) : pass_state * result unit :=
  match processes with
  | [] => (st, Ok tt)
  | proc :: rest =>
      match measure timestamp proc (sample proc) with
      | Got r => sample_all timestamp sample rest (record_process st r)
      | Psutil _ => sample_all timestamp sample rest st
      | Fails e => (st, Raise e)
      end
  end.

(** What one pass of the loop reads from the outside. *)
Record pass_input := {
  process_iter : list process;
  sample : process -> probes;
  now : string;
  elapsed_hours : float;
  interrupted : bool
}.

Definition pass_header (inp : pass_input) : list perf_event :=
  [PClear;
   PPrint "🤖 RIGnew Performance Monitor";
   PPrint ("⏱️  Running for: " +:+ format_f 2 (elapsed_hours inp) +:+ " hours");
   PPrint ("🕒 Last update: " +:+ now inp);
   PPrint (repeat_str "=" 120);
   PPrint (ljust 40 "Process" +:+ " " +:+ ljust 8 "PID" +:+ " " +:+ ljust 8 "CPU%"
           +:+ " " +:+ ljust 10 "Memory%" +:+ " " +:+ ljust 12 "Memory Used"
           +:+ " " +:+ ljust 8 "Threads" +:+ " " +:+ ljust 10 "Status");
   PPrint (repeat_str "-" 120)].

Definition pass_footer (log_file : string) (st : pass_state) : list perf_event :=
  [PPrint (repeat_str "-" 120);
   PPrint ("Active Processes: " +:+ format_int (active_processes st));
   PPrint ("Total CPU Usage: " +:+ format_f 1 (total_cpu st) +:+ "%");
   PPrint ("Total Memory Usage: " +:+ format_f 1 (total_memory st) +:+ "%");
   PPrint (newline +:+ "📊 Performance data is being logged to: " +:+ log_file);
   PPrint ("⏱️  Next update in " +:+ "60" +:+ " seconds...");
   PFlush].

(** One pass of [while True], lines 105 to 182.  An interrupt is taken to
    arrive during the sleep. *)
Definition pass (log_file : string) (inp : pass_input) : list perf_event * result unit :=
  let processes := get_rig_processes (process_iter inp) in
  let start := {| total_cpu := 0; total_memory := 0; active_processes := 0;
                  events := pass_header inp |} in
  match sample_all (now inp) (sample inp) processes start with
  | (st, Ok _) =>
      (events st ++ pass_footer log_file st ++
         (if interrupted inp then [] else [PSleep 60]),
       if interrupted inp then Raise KeyboardInterrupt else Ok tt)
  | (st, Raise e) => (events st, Raise e)
  end.

Fixpoint passes (iterations : nat) (log_file : string) (inputs : nat -> pass_input) (i : nat)
    : list perf_event * result unit :=
  match iterations with
  | O => ([], Ok tt)
  | S iterations' =>
      match pass log_file (inputs i) with
      | (out, Ok _) =>
          let '(out', r) := passes iterations' log_file inputs (S i) in (out ++ out', r)
      | (out, Raise e) => (out, Raise e)
      end
  end.

Definition csv_header : list string :=
  ["Timestamp"; "Process"; "PID"; "CPU%"; "Memory%"; "Memory_Used"; "Threads"; "Status"].

(** Lines 85 to 98 and 184 to 186: what [monitor_performance] does before
    and after the loop.  [started] is the time of the start as
    [strftime("%Y%m%d_%H%M%S")] gives it. *)
Definition log_path (started : string) : string :=
  "data/performance_logs/performance_log_" +:+ started +:+ ".csv".

Definition opening (log_file : string) : list perf_event :=
  [PPrint "🔍 Starting performance monitoring...";
   PPrint ("📝 Logging to: " +:+ log_file);
   PPrint (newline +:+ repeat_str "=" 120);
   PWrite (Header csv_header)].

Definition closing (log_file : string) : list perf_event :=
  [PPrint (newline +:+ newline +:+ "✋ Monitoring stopped by user");
   PPrint ("📊 Performance log saved to: " +:+ log_file)].

(** [monitor_performance], observed for [iterations] passes. *)
Definition monitor_performance (iterations : nat) (started : string)
    (inputs : nat -> pass_input) : list perf_event * result unit :=
  let log_file := log_path started in
  match passes iterations log_file inputs 0 with
  | (out, Raise KeyboardInterrupt) => (opening log_file ++ out ++ closing log_file, Ok tt)
  | (out, r) => (opening log_file ++ out, r)
  end.

(** The rows that a run has written to the log file, in order. *)
Definition written (out : list perf_event) : list csv_record :=
  omap (fun ev => match ev with PWrite record => Some record | _ => None end) out.

Definition data_rows (out : list perf_event) : list log_row :=
  omap (fun ev => match ev with PWrite (Data r) => Some r | _ => None end) out.

(** ** Reference definitions, written from the specification *)

(** "Collapse to one entry per key, preserving first-seen order": an entry
    stays, and every later entry with its key goes. *)
Fixpoint first_by {A K : Type} `{EqDecision K} (key : A -> K) (l : list A) : list A :=
  match l with
  | [] => []
  | x :: l' => x :: filter (fun y => key y ≠ key x) (first_by key l')
  end.

(** For the selector the key is the process id. *)
Definition first_seen (l : list process) : list process := first_by pid l.

(** [a < b] as a truth value, false when one side is [None]. *)
Definition cell_ltb (a b : cell) : bool :=
  match a, b with
  | Some s, Some t => String.ltb s t
  | _, _ => false
  end.

(** "The most recent row per token", ties going to the earlier row: the
    entry of [token] with the greatest timestamp, the first such one. *)
Fixpoint most_recent (token : cell) (signals : list signal) : option signal :=
  match signals with
  | [] => None
  | s :: rest =>
      if decide (name s = token) then
        match most_recent token rest with
        | Some best => if cell_ltb (timestamp s) (timestamp best) then Some best else Some s
        | None => Some s
        end
      else most_recent token rest
  end.

(** The candidate list before deduplication. *)
Definition candidates (process_iter : list process) : list process :=
  fold_left visit process_iter [].

(** [needle] occurs in [hay]. *)
Definition substring (needle hay : string) : Prop :=
  exists pre post, hay = pre +:+ needle +:+ post.

(** The text is in fixed-point notation with [places] decimals: an optional
    minus sign, at least one digit, a point, and [places] digits. *)
Fixpoint digits_only (s : string) : bool :=
  match s with
  | EmptyString => true
  | String c s' => is_digit c && digits_only s'
  end.

Definition fixed_notation (places : nat) (s : string) : Prop :=
  exists sign int_part frac,
    s = sign +:+ int_part +:+ "." +:+ frac /\
    (sign = "" \/ sign = "-") /\
    int_part <> "" /\ digits_only int_part = true /\
    digits_only frac = true /\ String.length frac = places.

Definition is_finite (x : float) : bool :=
  match Prim2SF x with
  | S754_zero _ | S754_finite _ _ _ => true
  | _ => false
  end.

(** "A 1024-based unit ladder (B, KB, MB, GB, TB), each step dividing by
    1024": the units, and the value after [k] divisions. *)
Definition ladder : list string := ["B"; "KB"; "MB"; "GB"; "TB"].

Fixpoint divided (k : nat) (bytes : pynumber) : result pynumber :=
  match k with
  | O => Ok bytes
  | S k' => b ← num_div_1024 bytes; divided k' b
  end.

(** The timestamp of [a] is not below the timestamp of [b]: the order in
    which a descending sort leaves two entries. *)
Definition not_older (a b : signal) : Prop :=
  cell_ltb (timestamp a) (timestamp b) = false.

(** The first entry of [token] after one insertion of the sort, from the
    first entry of [token] before it. *)
Definition head_after_insert (token : cell) (x : signal) (before : option signal) : option signal :=
  if decide (name x = token) then
    match before with
    | Some best => if cell_ltb (timestamp x) (timestamp best) then Some best else Some x
    | None => Some x
    end
  else before.

(** "Stopping at the first unit where the value is below 1024", read on the
    byte count itself: the index of the unit in the ladder. *)
Definition unit_index (n : Z) : nat :=
  if n <? 1024 then 0
  else if n <? 1024 ^ 2 then 1
  else if n <? 1024 ^ 3 then 2
  else if n <? 1024 ^ 4 then 3
  else 4.

(** The quotient [num / den] with two decimals, in fixed-point notation,
    rounded to the nearest hundredth (ties to the even one). *)
Definition two_places (num den : Z) : string :=
  fixed_point 2 (round_half_even (100 * num) den).

(** The binary64 number [n / 2^t] for an integer [n] of at most 53 bits: the
    bits of [n] moved to the top of a 53-bit mantissa, and the exponent. *)
Definition mantissa53 (n : positive) : positive :=
  Z.to_pos (Z.pos n * 2 ^ (53 - Z.pos (digits2_pos n))).

Definition dyadic (n : positive) (t : Z) : spec_float :=
  S754_finite false (mantissa53 n) (Z.pos (digits2_pos n) - 53 - t).

(** What [display_table] prints before and after the rows. *)
Definition table_header : list event :=
  [ClearScreen;
   Print (newline +:+ "🤖 Latest Trading Signals - 2025-02-02");
   Print "📊 Last Update: 12:03:05";
   Print (repeat_str "=" 100);
   Print (ljust 20 "Token" +:+ " " +:+ ljust 15 "Price" +:+ " " +:+ ljust 12 "Signal"
          +:+ " " +:+ ljust 12 "1h Change" +:+ " " +:+ ljust 10 "Time");
   Print (repeat_str "-" 100)].

Definition table_footer : event := Print (newline +:+ repeat_str "=" 100).

(** A signal whose name and recommendation are strings, and the line of
    the table for it. *)
Definition complete (s : signal) : Prop :=
  is_Some (name s) /\ is_Some (recommendation s).

Definition signal_line (s : signal) : string :=
  let '(color, change_str) := colour_and_change s in
  color +:+ ljust 20 (get (name s) "") +:+ " " +:+ ljust 15 (format_price (price s))
  +:+ " " +:+ ljust 12 (get (recommendation s) "") +:+ Style_RESET_ALL +:+ " "
  +:+ ljust 15 change_str +:+ " 12:03:05".

(** The two checks of the selector and the visibility test, as one test. *)
Definition selected (p : process) : bool :=
  should_show_process (info p) && (relevant p || specific_executable p).



(** The rows of a pass that count as active. *)
Definition active_rows (rows : list log_row) : list log_row :=
  filter (fun r => PrimFloat.ltb 0 (log_cpu_percent r)
                   || PrimFloat.ltb 0 (log_memory_percent r) = true) rows.

(** ** Sample inputs *)

Definition sample_process (id : Z) (name : string) (cmdline : list string)
    (status : string) (cpu mem : float) : process :=
  {| pid := id;
     info := {| info_name := name;
                info_cmdline := Some cmdline;
                info_status := Some status;
                info_cpu_percent := Some cpu;
                info_memory_percent := Some mem |} |}.

Definition sample_processes : list process :=
  [sample_process 1 "bash" ["/bin/bash"] "running" 0 0;
   sample_process 2 "Python3" ["python3"; "/root/RIGnew/main.py"] "sleeping" 0 0;
   sample_process 3 "agent" ["/root/RIGnew/target/debug/agent"] "running" 1 1;
   sample_process 4 "cargo" [] "stopped" 0 0;
   sample_process 5 "cargo" [] "stopped" 0.5 0;
   sample_process 6 "sh" ["sh"; "-c"; "cd /root/RIGnew && ls"] "sleeping" 0 0].

Definition sample_row (timestamp name symbol price change_24h recommendation : string) : row :=
  list_to_map [("timestamp", Some timestamp); ("name", Some name);
               ("symbol", Some symbol); ("price", Some price);
               ("change_24h", Some change_24h);
               ("recommendation", Some recommendation)].

Definition sample_reader : list row :=
  [sample_row "2025-01-02T00:00:00" "FOO" "F" "0.5" "3.2" "BUY";
   sample_row "2025-01-03T00:00:00" "FOO" "F" "abc" "1" "SELL";
   sample_row "2025-01-03T00:00:00" "BAR" "B" "1.5" "n/a" "NEW LISTING";
   sample_row "2025-01-01T00:00:00" "FOO" "F" "2" "0" "HOLD";
   sample_row "2025-01-03T00:00:00" "FOO" "F" "7" "-1" "HOLD"].

(** A reader with a short row: the fields after the timestamp are [None]. *)
Definition short_row (timestamp : string) : row :=
  list_to_map [("timestamp", Some timestamp); ("name", None); ("symbol", None);
               ("price", None); ("change_24h", None); ("recommendation", None)].

Definition sample_short_reader : list row :=
  [sample_row "2025-01-03T00:00:00" "FOO" "F" "0.5" "3.2" "BUY";
   short_row "2025-01-02T00:00:00";
   sample_row "2025-01-01T00:00:00" "BAR" "B" "1.5" "-2" "SELL"].

(** A reader whose second row has no timestamp field. *)
Definition untimed_row : row :=
  list_to_map [("name", Some "BAR"); ("timestamp", None)].

Definition sample_untimed_reader : list row :=
  [sample_row "2025-01-03T00:00:00" "FOO" "F" "0.5" "3.2" "BUY"; untimed_row].

(** A file without a price column. *)
Definition priceless_row : row :=
  list_to_map [("timestamp", Some "2025-01-03T00:00:00"); ("name", Some "FOO");
               ("change_24h", Some "2.5")].

(** The input file over three refreshes, the third one interrupted. *)
Definition sample_files (i : nat) : result (list row) :=
  match i with
  | 0%nat => Ok sample_reader
  | 1%nat => Raise FileNotFoundError
  | _ => Raise KeyboardInterrupt
  end.

(** What the processes answer: process 3 has gone, the others answer. *)
Definition sample_probes (p : process) : probes :=
  if pid p =? 3 then
    {| probe_cpu_percent := Got 1%float; probe_memory_percent := Psutil NoSuchProcess;
       probe_rss := Psutil NoSuchProcess; probe_num_threads := Psutil NoSuchProcess;
       probe_status := Psutil NoSuchProcess; probe_cmdline := Psutil NoSuchProcess;
       probe_cmdline_again := Psutil NoSuchProcess; probe_name := Psutil NoSuchProcess |}
  else
    {| probe_cpu_percent := Got (if pid p =? 2 then 12.5%float else 0%float);
       probe_memory_percent := Got 0%float;
       probe_rss := Got 1610612736; probe_num_threads := Got 4;
       probe_status := Got "sleeping";
       probe_cmdline := Got (get (info_cmdline (info p)) []);
       probe_cmdline_again := Got (get (info_cmdline (info p)) []);
       probe_name := Got (info_name (info p)) |}.

Definition sample_pass (interrupted : bool) : pass_input :=
  {| process_iter := sample_processes; sample := sample_probes;
     now := "2025-01-03 00:00:00"; elapsed_hours := 0.5; interrupted := interrupted |}.

(** Two passes, the second one interrupted. *)
Definition sample_passes (i : nat) : pass_input :=
  sample_pass match i with
              | O => false
              | _ => true
              end.

(** In the second pass the thread count of process 6 raises something that
    is not an error of psutil. *)
Definition failing_probes (p : process) : probes :=
  if pid p =? 6 then
    {| probe_cpu_percent := Got 0%float; probe_memory_percent := Got 0%float;
       probe_rss := Got 4096; probe_num_threads := Fails OtherException;
       probe_status := Got "sleeping"; probe_cmdline := Got [];
       probe_cmdline_again := Got []; probe_name := Got "sh" |}
  else sample_probes p.

Definition failing_passes (i : nat) : pass_input :=
  {| process_iter := sample_processes;
     sample := match i with
               | O => sample_probes
               | _ => failing_probes
               end;
     now := "2025-01-03 00:00:00"; elapsed_hours := 0.5; interrupted := false |}.

(** U+00A0, a space that [float] strips, U+001C, a separator that it does
    not strip, and the Arabic-Indic digits of 3.2. *)
Definition no_break_space : string :=
  String (ascii_of_nat 194) (String (ascii_of_nat 160) "").

Definition file_separator : string := String (ascii_of_nat 28) "".

Definition arabic_indic_3_2 : string :=
  String (ascii_of_nat 217) (String (ascii_of_nat 163) ".")
  +:+ String (ascii_of_nat 217) (String (ascii_of_nat 162) "").

Definition sample_odd_reader : list row :=
  [sample_row "2025-01-04T00:00:00" "BAZ" "Z" (file_separator +:+ "1.5") "1" "BUY";
   sample_row "2025-01-04T00:00:00" "QUX" "Q" ("1.5" +:+ no_break_space)
              (file_separator +:+ "3.2") "BUY";
   sample_row "2025-01-04T00:00:00" "ZOT" "T" ("1.5" +:+ no_break_space)
              arabic_indic_3_2 "BUY"].

(** * Theorems *)

(** ** Strings *)

Lemma prefix_true_iff (a b : string) :
  String.prefix a b = true <-> exists post, b = a +:+ post.
Proof.
  revert b. induction a as [|c a IH]; intros [|d b]; simpl.
  - split; [intros _; by exists "" | done].
  - split; [intros _; by exists (String d b) | done].
  - split; [discriminate | intros [post H]; discriminate].
  - destruct (Ascii.ascii_dec c d) as [->|Hne].
    + rewrite IH. split; intros [post H]; exists post; [by rewrite H | by injection H].
    + split; [discriminate | intros [post H]; injection H; congruence].
Qed.

Lemma contains_iff (needle hay : string) :
  contains needle hay = true <-> substring needle hay.
Proof.
  unfold substring. induction hay as [|c hay IH].
  - change (contains needle "") with (String.prefix needle "" || false).
    rewrite orb_false_r, prefix_true_iff. split.
    + intros [post H]. by exists "", post.
    + intros ([|d pre] & post & H); [by exists post | discriminate].
  - change (contains needle (String c hay))
      with (String.prefix needle (String c hay) || contains needle hay).
    rewrite orb_true_iff, prefix_true_iff, IH. split.
    + intros [[post H] | (pre & post & H)].
      * by exists "", post.
      * exists (String c pre), post. by rewrite H.
    + intros ([|d pre] & post & H).
      * left. by exists post.
      * right. exists pre, post. by injection H.
Qed.

Lemma str_in_iff (s : string) (l : list string) :
  str_in s l = true <-> s ∈ l.
Proof.
  unfold str_in. rewrite existsb_exists. split.
  - intros (x & Hx & Heq). apply String.eqb_eq in Heq as ->. by apply list_elem_of_In.
  - intros H. exists s. split; [by apply list_elem_of_In | apply String.eqb_refl].
Qed.

(** ** Floating-point comparisons *)

Lemma cmp_lt_cases (e1 e2 : Z) (m1 m2 : positive) :
  match e1 ?= e2 with
  | Lt => Lt
  | Gt => Gt
  | Eq => Pos.compare_cont Eq m1 m2
  end = Lt <-> e1 < e2 \/ (e1 = e2 /\ (m1 < m2)%positive).
Proof.
  change (Pos.compare_cont Eq m1 m2) with (m1 ?= m2)%positive.
  destruct (Z.compare_spec e1 e2); rewrite ?Pos.compare_lt_iff;
    split; try discriminate; try lia; auto.
Qed.

Lemma cmp_gt_cases (e1 e2 : Z) (m1 m2 : positive) :
  match e1 ?= e2 with
  | Lt => Gt
  | Gt => Lt
  | Eq => CompOpp (Pos.compare_cont Eq m1 m2)
  end = Lt <-> e2 < e1 \/ (e1 = e2 /\ (m2 < m1)%positive).
Proof.
  change (Pos.compare_cont Eq m1 m2) with (m1 ?= m2)%positive.
  rewrite <- Pos.compare_antisym.
  destruct (Z.compare_spec e1 e2); rewrite ?Pos.compare_lt_iff;
    split; try discriminate; try lia; auto.
Qed.

Lemma SFltb_trans (x y z : spec_float) :
  SFltb x y = true -> SFltb y z = true -> SFltb x z = true.
Proof.
  unfold SFltb.
  destruct x as [[]|[]| |[] mx ex], y as [[]|[]| |[] my ey], z as [[]|[]| |[] mz ez];
    simpl; try discriminate; try reflexivity.
  - destruct (match ex ?= ey with Lt => Gt | Gt => Lt | Eq => CompOpp (Pos.compare_cont Eq mx my) end) eqn:H1;
      try discriminate.
    destruct (match ey ?= ez with Lt => Gt | Gt => Lt | Eq => CompOpp (Pos.compare_cont Eq my mz) end) eqn:H2;
      try discriminate.
    intros _ _. apply cmp_gt_cases in H1, H2.
    assert (H3 : ez < ex \/ ex = ez /\ (mz < mx)%positive) by lia.
    apply cmp_gt_cases in H3. by rewrite H3.
  - destruct (match ex ?= ey with Lt => Lt | Gt => Gt | Eq => Pos.compare_cont Eq mx my end) eqn:H1;
      try discriminate.
    destruct (match ey ?= ez with Lt => Lt | Gt => Gt | Eq => Pos.compare_cont Eq my mz end) eqn:H2;
      try discriminate.
    intros _ _. apply cmp_lt_cases in H1, H2.
    assert (H3 : ex < ez \/ ex = ez /\ (mx < mz)%positive) by lia.
    apply cmp_lt_cases in H3. by rewrite H3.
Qed.

Lemma SFltb_asym (x y : spec_float) :
  SFltb x y = true -> SFltb y x = false.
Proof.
  unfold SFltb.
  destruct x as [[]|[]| |[] mx ex], y as [[]|[]| |[] my ey];
    simpl; try discriminate; try reflexivity.
  - destruct (match ex ?= ey with Lt => Gt | Gt => Lt | Eq => CompOpp (Pos.compare_cont Eq mx my) end) eqn:H1;
      try discriminate. intros _. apply cmp_gt_cases in H1.
    destruct (match ey ?= ex with Lt => Gt | Gt => Lt | Eq => CompOpp (Pos.compare_cont Eq my mx) end) eqn:H2;
      try reflexivity. apply cmp_gt_cases in H2. lia.
  - destruct (match ex ?= ey with Lt => Lt | Gt => Gt | Eq => Pos.compare_cont Eq mx my end) eqn:H1;
      try discriminate. intros _. apply cmp_lt_cases in H1.
    destruct (match ey ?= ex with Lt => Lt | Gt => Gt | Eq => Pos.compare_cont Eq my mx end) eqn:H2;
      try reflexivity. apply cmp_lt_cases in H2. lia.
Qed.

Lemma SFeqb_zero (x : spec_float) :
  SFeqb x (S754_zero false) = true -> exists s, x = S754_zero s.
Proof.
  destruct x as [s|[]| |[] m e]; try discriminate. by exists s.
Qed.

Lemma SFltb_not_eqb (x y : spec_float) :
  SFltb x y = true -> SFeqb x y = false.
Proof. unfold SFltb, SFeqb. by destruct (SFcompare x y) as [[]|]. Qed.

Lemma float_zero_lt (x c : float) :
  PrimFloat.ltb 0 c = true -> PrimFloat.eqb x 0 = true -> PrimFloat.ltb x c = true.
Proof.
  rewrite !FloatAxioms.ltb_spec, FloatAxioms.eqb_spec. change (Prim2SF 0) with (S754_zero false).
  intros Hc [s ->]%SFeqb_zero. revert Hc. unfold SFltb.
  by destruct (Prim2SF c) as [|[]| |[]].
Qed.

Lemma float_ltb_trans (x y z : float) :
  PrimFloat.ltb x y = true -> PrimFloat.ltb y z = true -> PrimFloat.ltb x z = true.
Proof. rewrite !FloatAxioms.ltb_spec. apply SFltb_trans. Qed.

(** ** The process selector *)

Lemma visit_app (acc : list process) (p : process) :
  visit acc p = acc ++ visit [] p.
Proof.
  unfold visit.
  destruct (relevant p && should_show_process (info p)),
           (specific_executable p && should_show_process (info p));
    simpl; by rewrite <- ?app_assoc, ?app_nil_r.
Qed.

Lemma fold_visit_app (l : list process) (acc : list process) :
  fold_left visit l acc = acc ++ fold_left visit l [].
Proof.
  revert acc. induction l as [|p l IH]; intros acc; simpl.
  - by rewrite app_nil_r.
  - rewrite (IH (visit acc p)), (IH (visit [] p)), (visit_app acc p).
    by rewrite app_assoc.
Qed.

Lemma candidates_cons (p : process) (l : list process) :
  candidates (p :: l) = visit [] p ++ candidates l.
Proof. unfold candidates. simpl. apply fold_visit_app. Qed.

Lemma elem_of_visit (p q : process) :
  q ∈ visit [] p <->
  q = p /\ should_show_process (info p) = true /\
  (relevant p = true \/ specific_executable p = true).
Proof.
  unfold visit.
  destruct (relevant p), (specific_executable p), (should_show_process (info p));
    simpl; set_solver.
Qed.

Lemma elem_of_candidates (l : list process) (q : process) :
  q ∈ candidates l <->
  q ∈ l /\ should_show_process (info q) = true /\
  (relevant q = true \/ specific_executable q = true).
Proof.
  induction l as [|p l IH].
  - unfold candidates. simpl. set_solver.
  - rewrite candidates_cons, elem_of_app, IH, elem_of_visit, elem_of_cons.
    split; [intros [(-> & ? & ?) | (? & ? & ?)] | intros ([-> | ?] & ? & ?)]; eauto.
Qed.

Section first_by.
Context {A K : Type} `{EqDecision K} (key : A -> K).

Lemma filter_first_by (k : K) (l : list A) :
  filter (fun y => key y ≠ k) (first_by key l) =
  first_by key (filter (fun y => key y ≠ k) l).
Proof.
  induction l as [|x l IH]; [done|]. simpl.
  rewrite filter_cons. case_decide as Hx.
  - rewrite filter_cons. rewrite decide_True by done. simpl. f_equal.
    rewrite <- IH. rewrite !list_filter_filter.
    apply list_filter_iff. tauto.
  - rewrite (filter_cons _ x l). rewrite decide_False by (intros Hne; by apply Hne).
    rewrite list_filter_filter, <- IH.
    apply list_filter_iff. intros y. split; [tauto|].
    intros ?. split; [done | congruence].
Qed.

Lemma elem_of_first_by (l : list A) (y : A) :
  y ∈ first_by key l -> y ∈ l.
Proof.
  revert y. induction l as [|x l IH]; intros y; simpl; [done|].
  rewrite elem_of_cons, list_elem_of_filter. set_solver.
Qed.

Lemma first_by_key (l : list A) (x : A) :
  x ∈ l -> exists y, y ∈ first_by key l /\ key y = key x.
Proof.
  induction l as [|z l IH]; [by intros ?%elem_of_nil|].
  intros [->|Hin]%elem_of_cons; simpl.
  - exists z. set_solver.
  - destruct (decide (key x = key z)) as [Heq|Hne].
    + exists z. set_solver.
    + destruct (IH Hin) as (y & Hy & Hkey). exists y. split; [|done].
      apply elem_of_cons. right. apply list_elem_of_filter. split; [congruence|done].
Qed.

Lemma first_by_NoDup (l : list A) :
  NoDup (key <$> first_by key l).
Proof.
  induction l as [|x l IH]; simpl; [constructor|].
  constructor.
  - rewrite list_elem_of_fmap. intros (y & Heq & Hy).
    apply list_elem_of_filter in Hy as [Hne _]. congruence.
  - apply (sublist_NoDup _ _ IH), fmap_sublist, sublist_filter.
Qed.

Lemma first_by_sublist (l : list A) :
  first_by key l `sublist_of` l.
Proof.
  induction l as [|x l IH]; simpl; [done|].
  apply sublist_skip. etrans; [apply sublist_filter | exact IH].
Qed.

Lemma filter_none (P : A -> Prop) `{forall x, Decision (P x)} (l : list A) :
  (forall x, x ∈ l -> ~ P x) -> filter P l = [].
Proof.
  induction l as [|x l IH]; intros Hl; [done|].
  rewrite filter_cons_False by (apply Hl; left).
  apply IH. intros y Hy. apply Hl. by right.
Qed.

Lemma one_entry_of_NoDup (l : list A) (x : A) :
  NoDup (key <$> l) -> x ∈ l ->
  length (filter (fun y => key y = key x) l) = 1%nat.
Proof.
  induction l as [|z l IH]; [by intros _ ?%elem_of_nil|].
  rewrite fmap_cons, NoDup_cons, elem_of_cons, filter_cons.
  intros [Hz Hl] Hx. case_decide as Hkey.
  - simpl. f_equal. apply length_zero_iff_nil, filter_none.
    intros y Hy Heq. apply Hz.
    apply list_elem_of_fmap. exists y. split; [congruence | done].
  - destruct Hx as [->|Hx]; [done | by apply IH].
Qed.

Lemma same_key_same_entry (l : list A) (x y : A) :
  NoDup (key <$> l) -> x ∈ l -> y ∈ l -> key y = key x -> y = x.
Proof.
  induction l as [|z l IH]; [by intros _ ?%elem_of_nil|].
  rewrite fmap_cons, NoDup_cons, !elem_of_cons.
  intros [Hz Hl] [->|Hx] [->|Hy] Heq; auto.
  - destruct Hz. apply list_elem_of_fmap. by exists y.
  - destruct Hz. apply list_elem_of_fmap. by exists x.
Qed.

(** Of the entries with key [k], the collapsed list keeps the first. *)
Lemma filter_key_first_by (k : K) (l : list A) :
  filter (fun y => key y = k) (first_by key l) =
  option_list (head (filter (fun y => key y = k) l)).
Proof.
  induction l as [|x l IH]; [done|]. simpl.
  rewrite !filter_cons. case_decide as Hx; simpl.
  - f_equal. apply filter_none. intros y [Hne _]%list_elem_of_filter. congruence.
  - rewrite list_filter_filter, <- IH. apply list_filter_iff.
    intros y. split; [tauto | intros Hy; split; [done | congruence]].
Qed.
End first_by.

Lemma remove_duplicates_spec (l : list process) (seen : gset Z) (acc : list process) :
  remove_duplicates l seen acc =
  acc ++ first_by pid (filter (fun p => pid p ∉ seen) l).
Proof.
  revert seen acc. induction l as [|p l IH]; intros seen acc; simpl.
  - by rewrite app_nil_r.
  - rewrite filter_cons. destruct (decide (pid p ∈ seen)) as [Hin|Hnin].
    + rewrite decide_False by tauto. apply IH.
    + rewrite decide_True by done. rewrite IH. simpl.
      rewrite <- app_assoc. simpl. do 2 f_equal.
      rewrite (filter_first_by pid), list_filter_filter.
      f_equal. apply list_filter_iff. intros q. set_solver.
Qed.

Lemma get_rig_processes_first_seen (l : list process) :
  get_rig_processes l = first_seen (candidates l).
Proof.
  unfold get_rig_processes, first_seen. rewrite remove_duplicates_spec. simpl.
  fold (candidates l). f_equal.
  induction (candidates l) as [|p c IH]; [done|].
  rewrite filter_cons, decide_True by set_solver. by f_equal.
Qed.

Lemma get_rig_processes_shown (l : list process) (q : process) :
  q ∈ get_rig_processes l -> q ∈ l /\ should_show_process (info q) = true.
Proof.
  rewrite get_rig_processes_first_seen.
  intros Hq%elem_of_first_by%elem_of_candidates. tauto.
Qed.

(** C1. [should_show_process] is true exactly when the status is none of
    stopped, dead, zombie, or the CPU usage exceeds 0.1, or the memory usage
    exceeds 0.1.  A stopped process with 0.0 CPU and 0.0 memory is therefore
    not shown, and the selector never returns it, whatever the relevance
    checks said. *)
Theorem should_show_process_iff (p : proc_info) :
  (should_show_process p = true <->
     get (info_status p) "" ∉ ["stopped"; "dead"; "zombie"] \/
     PrimFloat.ltb 0.1 (get (info_cpu_percent p) 0%float) = true \/
     PrimFloat.ltb 0.1 (get (info_memory_percent p) 0%float) = true) /\
  (get (info_status p) "" = "stopped" ->
   get (info_cpu_percent p) 0%float = 0%float ->
   get (info_memory_percent p) 0%float = 0%float ->
   should_show_process p = false /\
   forall (process_iter : list process) (proc : process),
     info proc = p -> proc ∉ get_rig_processes process_iter).
Proof.
  assert (Hiff : should_show_process p = true <->
     get (info_status p) "" ∉ ["stopped"; "dead"; "zombie"] \/
     PrimFloat.ltb 0.1 (get (info_cpu_percent p) 0%float) = true \/
     PrimFloat.ltb 0.1 (get (info_memory_percent p) 0%float) = true).
  { unfold should_show_process.
    rewrite !orb_true_iff, negb_true_iff, <- not_true_iff_false, str_in_iff. tauto. }
  split; [exact Hiff|].
  intros Hs Hc Hm.
  assert (Hfalse : should_show_process p = false).
  { unfold should_show_process. rewrite Hs, Hc, Hm. reflexivity. }
  split; [exact Hfalse|].
  intros l proc <- [_ Hshow]%get_rig_processes_shown. congruence.
Qed.

(** C3. The selector returns at most one entry per process id: its output
    is the candidate list collapsed to the first entry seen for every pid, in
    the order of the candidate list.  A process that passes both checks is
    appended twice and still has exactly one entry. *)
Theorem get_rig_processes_one_entry_per_pid (process_iter : list process) :
  NoDup (pid <$> get_rig_processes process_iter) /\
  get_rig_processes process_iter = first_seen (candidates process_iter) /\
  get_rig_processes process_iter `sublist_of` candidates process_iter /\
  (forall p, p ∈ candidates process_iter ->
     length (filter (fun q => pid q = pid p) (get_rig_processes process_iter)) = 1%nat) /\
  (forall p, p ∈ process_iter ->
     relevant p = true -> specific_executable p = true ->
     should_show_process (info p) = true ->
     (forall rig_processes, visit rig_processes p = rig_processes ++ [p; p]) /\
     length (filter (fun q => pid q = pid p) (get_rig_processes process_iter)) = 1%nat).
Proof.
  rewrite get_rig_processes_first_seen.
  assert (Hone : forall p, p ∈ candidates process_iter ->
     length (filter (fun q => pid q = pid p) (first_seen (candidates process_iter))) = 1%nat).
  { intros p Hp. destruct (first_by_key pid _ _ Hp) as (q & Hq & Hpid).
    rewrite <- Hpid.
    apply (one_entry_of_NoDup pid); [apply first_by_NoDup | exact Hq]. }
  split; [apply first_by_NoDup|].
  split; [done|].
  split; [apply first_by_sublist|].
  split; [exact Hone|].
  intros p Hp Hrel Hexe Hshow. split.
  - intros acc. unfold visit. rewrite Hrel, Hexe, Hshow. simpl.
    by rewrite <- app_assoc.
  - apply Hone, elem_of_candidates. auto.
Qed.

(** C8. A process with the marker path ["/root/RIGnew"] in one of the
    arguments of its command line is selected, whatever its name, as soon as
    the visibility predicate holds for it: the output has an entry for its
    pid, and that entry is the process itself since pids are distinct within
    one enumeration. *)
Theorem marker_path_selected
    (process_iter : list process) (p : process) (cmdline : list string) :
  p ∈ process_iter ->
  info_cmdline (info p) = Some cmdline ->
  (exists cmd, cmd ∈ cmdline /\ substring rig_path cmd) ->
  should_show_process (info p) = true ->
  (exists q, q ∈ get_rig_processes process_iter /\ pid q = pid p) /\
  (NoDup (pid <$> process_iter) -> p ∈ get_rig_processes process_iter).
Proof.
  intros Hp Hcmd (cmd & Hin & Hsub) Hshow.
  assert (Hrel : relevant p = true).
  { unfold relevant. rewrite Hcmd.
    assert (Hany : cmdline_any (Some cmdline) (fun cmd => contains rig_path cmd) = true).
    { destruct cmdline as [|c0 rest]; [by apply elem_of_nil in Hin|].
      unfold cmdline_any.
      apply (proj2 (existsb_exists (fun cmd => contains rig_path cmd) (c0 :: rest))).
      exists cmd.
      split; [by apply list_elem_of_In | by apply contains_iff]. }
    by rewrite Hany. }
  assert (Hcand : p ∈ candidates process_iter) by (apply elem_of_candidates; auto).
  rewrite get_rig_processes_first_seen.
  destruct (first_by_key pid _ _ Hcand) as (q & Hq & Hpid).
  split; [by exists q|].
  intros Hnd.
  assert (q ∈ process_iter) by by apply elem_of_first_by, elem_of_candidates in Hq as [? _].
  by rewrite <- (same_key_same_entry pid process_iter p q Hnd Hp).
Qed.

(** ** Number formatting *)

#[local] Arguments digit_char : simpl never.
#[local] Arguments is_digit : simpl never.

Lemma digit_char_is_digit (d : Z) :
  0 <= d < 10 -> is_digit (digit_char d) = true.
Proof.
  intros H.
  assert (Hd : d = 0 \/ d = 1 \/ d = 2 \/ d = 3 \/ d = 4 \/ d = 5 \/
               d = 6 \/ d = 7 \/ d = 8 \/ d = 9) by lia.
  repeat destruct Hd as [->|Hd]; try subst d; reflexivity.
Qed.

Lemma mod10_digit (n : Z) : is_digit (digit_char (n mod 10)) = true.
Proof. apply digit_char_is_digit, Z.mod_pos_bound. lia. Qed.

Lemma digits_only_cons (c : ascii) (s : string) :
  digits_only (String c s) = is_digit c && digits_only s.
Proof. reflexivity. Qed.

Lemma decimal_go_digits (fuel : nat) (n : Z) (acc : string) :
  digits_only acc = true -> digits_only (decimal_go fuel n acc) = true.
Proof.
  revert n acc. induction fuel as [|fuel IH]; intros n acc Hacc; [done|].
  cbn [decimal_go].
  assert (Hacc' : digits_only (String (digit_char (n mod 10)) acc) = true)
    by (by rewrite digits_only_cons, mod10_digit, Hacc).
  destruct (n / 10 =? 0); [done | by apply IH].
Qed.

Lemma decimal_go_nonempty (fuel : nat) (n : Z) (acc : string) :
  acc <> "" -> decimal_go fuel n acc <> "".
Proof.
  revert n acc. induction fuel as [|fuel IH]; intros n acc Hacc; [done|].
  cbn [decimal_go].
  destruct (n / 10 =? 0); [done | by apply IH].
Qed.

Lemma decimal_go_nonempty_S (fuel : nat) (n : Z) :
  decimal_go (S fuel) n "" <> "".
Proof.
  cbn [decimal_go]. destruct (n / 10 =? 0); [done | by apply decimal_go_nonempty].
Qed.

Lemma decimal_digits (n : Z) : digits_only (decimal n) = true /\ decimal n <> "".
Proof.
  unfold decimal. split.
  - by apply decimal_go_digits.
  - by apply decimal_go_nonempty_S.
Qed.

Lemma fixed_digits_shape (k : nat) (n : Z) (acc : string) :
  digits_only acc = true ->
  digits_only (fixed_digits k n acc) = true /\
  String.length (fixed_digits k n acc) = (k + String.length acc)%nat.
Proof.
  revert n acc. induction k as [|k IH]; intros n acc Hacc; [done|].
  cbn [fixed_digits].
  destruct (IH (n / 10) (String (digit_char (n mod 10)) acc)) as [Hd Hl].
  - by rewrite digits_only_cons, mod10_digit, Hacc.
  - split; [done|]. rewrite Hl. cbn [String.length]. lia.
Qed.

Lemma fixed_point_notation (places : nat) (sign : bool) (q : Z) :
  places <> 0%nat -> fixed_notation places (sign_prefix sign +:+ fixed_point places q).
Proof.
  intros Hp. unfold fixed_point.
  destruct places as [|k]; [done|].
  set (p := 10 ^ Z.of_nat (S k)).
  destruct (decimal_digits (q / p)) as [Hd Hne].
  destruct (fixed_digits_shape (S k) (q mod p) "" eq_refl) as [Hfd Hfl].
  exists (sign_prefix sign), (decimal (q / p)), (fixed_digits (S k) (q mod p) "").
  split; [done|]. split; [destruct sign; auto|].
  split; [done|]. split; [done|]. split; [done|].
  rewrite Hfl. simpl. lia.
Qed.

Lemma format_f_fixed (places : nat) (x : float) :
  places <> 0%nat -> is_finite x = true -> fixed_notation places (format_f places x).
Proof.
  unfold is_finite, format_f. intros Hp.
  destruct (Prim2SF x) as [s|s| |s m e]; try discriminate; intros _;
    by apply fixed_point_notation.
Qed.

Lemma float_lt_zero_negative (places : nat) (x : float) :
  PrimFloat.ltb x 0 = true -> String.prefix "-" (format_f places x) = true.
Proof.
  rewrite FloatAxioms.ltb_spec. change (Prim2SF 0) with (S754_zero false).
  unfold format_f, SFltb. intros H. apply prefix_true_iff.
  destruct (Prim2SF x) as [[]|[]| |[] m e]; try discriminate H;
    eexists; reflexivity.
Qed.

Lemma float_lt_ne (x y : float) :
  PrimFloat.ltb x y = true -> PrimFloat.eqb x y = false.
Proof. rewrite FloatAxioms.ltb_spec, FloatAxioms.eqb_spec. apply SFltb_not_eqb. Qed.

Lemma float_gt_ne (x y : float) :
  PrimFloat.ltb y x = true -> PrimFloat.eqb x y = false.
Proof.
  rewrite FloatAxioms.ltb_spec, FloatAxioms.eqb_spec. unfold SFltb, SFeqb.
  destruct (Prim2SF x) as [[]|[]| |[] mx ex], (Prim2SF y) as [[]|[]| |[] my ey];
    simpl; try discriminate; try reflexivity.
  - destruct (match ey ?= ex with Lt => Gt | Gt => Lt | Eq => CompOpp (Pos.compare_cont Eq my mx) end) eqn:H1;
      try discriminate. intros _. apply cmp_gt_cases in H1.
    destruct (match ex ?= ey with Lt => Gt | Gt => Lt | Eq => CompOpp (Pos.compare_cont Eq mx my) end) eqn:H2;
      try reflexivity.
    change (Pos.compare_cont Eq mx my) with (mx ?= my)%positive in H2.
    destruct (Z.compare_spec ex ey); try discriminate.
    destruct (Pos.compare_spec mx my); try discriminate. lia.
  - destruct (match ey ?= ex with Lt => Lt | Gt => Gt | Eq => Pos.compare_cont Eq my mx end) eqn:H1;
      try discriminate. intros _. apply cmp_lt_cases in H1.
    destruct (match ex ?= ey with Lt => Lt | Gt => Gt | Eq => Pos.compare_cont Eq mx my end) eqn:H2;
      try reflexivity.
    change (Pos.compare_cont Eq mx my) with (mx ?= my)%positive in H2.
    destruct (Z.compare_spec ex ey); try discriminate.
    destruct (Pos.compare_spec mx my); try discriminate. lia.
Qed.

Lemma float_ltb_asym (x y : float) :
  PrimFloat.ltb x y = true -> PrimFloat.ltb y x = false.
Proof. rewrite !FloatAxioms.ltb_spec. apply SFltb_asym. Qed.

Lemma float_zero_not_lt (x : float) :
  PrimFloat.eqb x 0 = true ->
  PrimFloat.ltb 0 x = false /\ PrimFloat.ltb x 0 = false.
Proof.
  rewrite !FloatAxioms.ltb_spec, FloatAxioms.eqb_spec.
  change (Prim2SF 0) with (S754_zero false).
  by intros [s ->]%SFeqb_zero.
Qed.

(** C7. [format_price] answers ["No data"] for a zero price, and otherwise
    the price after a dollar sign with 8 decimals below 0.01, with 4 decimals
    from there to below 1, and with 2 decimals otherwise. *)
Theorem format_price_cases (price : float) :
  (PrimFloat.eqb price 0 = true -> format_price price = "No data") /\
  (PrimFloat.eqb price 0 = false -> PrimFloat.ltb price 0.01 = true ->
   format_price price = "$" +:+ format_f 8 price) /\
  (PrimFloat.ltb price 0.01 = false -> PrimFloat.ltb price 1 = true ->
   format_price price = "$" +:+ format_f 4 price) /\
  (PrimFloat.ltb price 1 = false ->
   format_price price = "$" +:+ format_f 2 price) /\
  (is_finite price = true ->
   fixed_notation 8 (format_f 8 price) /\
   fixed_notation 4 (format_f 4 price) /\
   fixed_notation 2 (format_f 2 price)) /\
  format_price 0 = "No data" /\
  format_price 0.005 = "$0.00500000" /\
  format_price 0.5 = "$0.5000" /\
  format_price 5.5 = "$5.50".
Proof.
  assert (H01 : PrimFloat.ltb 0 0.01 = true) by reflexivity.
  assert (H1 : PrimFloat.ltb 0.01 1 = true) by reflexivity.
  unfold format_price. repeat split.
  - by intros ->.
  - by intros -> ->.
  - intros Hlt Hlt1. rewrite Hlt, Hlt1.
    destruct (PrimFloat.eqb price 0) eqn:Hz; [|done].
    by rewrite (float_zero_lt price 0.01 H01 Hz) in Hlt.
  - intros Hlt1.
    destruct (PrimFloat.ltb price 0.01) eqn:Hlt.
    { by rewrite (float_ltb_trans price 0.01 1 Hlt H1) in Hlt1. }
    destruct (PrimFloat.eqb price 0) eqn:Hz.
    { by rewrite (float_zero_lt price 0.01 H01 Hz) in Hlt. }
    by rewrite Hlt1.
  - by apply format_f_fixed.
  - by apply format_f_fixed.
  - by apply format_f_fixed.
Qed.

(** C9. The two percentage formats treat zero differently:
    [format_percentage] gives ["N/A"] for zero (and otherwise two decimals
    with the sign in front and a percent sign behind), while the change
    column of the display gives ["0.00%"] for a zero change, and the row shows
    that text unless it is a new listing. *)
Theorem percentage_zero_semantics :
  (forall p, PrimFloat.eqb p 0 = true -> format_percentage p = "N/A") /\
  (forall p, PrimFloat.ltb 0 p = true ->
     format_percentage p = "+" +:+ format_f 2 p +:+ "%") /\
  (forall p, PrimFloat.ltb p 0 = true ->
     format_percentage p = format_f 2 p +:+ "%" /\
     String.prefix "-" (format_f 2 p) = true) /\
  (forall c, PrimFloat.eqb c 0 = true ->
     format_change c = Style_RESET_ALL +:+ "0.00%" +:+ Style_RESET_ALL) /\
  (forall s, PrimFloat.eqb (change_24h s) 0 = true ->
     cell_is (recommendation s) "NEW LISTING" = false ->
     snd (colour_and_change s) = Style_RESET_ALL +:+ "0.00%" +:+ Style_RESET_ALL) /\
  format_percentage 0 = "N/A" /\
  format_change 0 = Style_RESET_ALL +:+ "0.00%" +:+ Style_RESET_ALL.
Proof.
  assert (Hchange : forall c, PrimFloat.eqb c 0 = true ->
     format_change c = Style_RESET_ALL +:+ "0.00%" +:+ Style_RESET_ALL).
  { intros c [Hpos Hneg]%float_zero_not_lt. unfold format_change. by rewrite Hpos, Hneg. }
  repeat split; try reflexivity.
  - intros p Hz. unfold format_percentage. by rewrite Hz.
  - intros p Hpos. unfold format_percentage.
    by rewrite (float_gt_ne p 0 Hpos), Hpos.
  - unfold format_percentage.
    by rewrite (float_lt_ne p 0 H), (float_ltb_asym p 0 H).
  - by apply float_lt_zero_negative.
  - exact Hchange.
  - intros s Hz Hnew. unfold colour_and_change. rewrite Hnew, (Hchange _ Hz).
    by destruct (cell_is (recommendation s) "BUY"), (cell_is (recommendation s) "SELL").
Qed.

(** ** The unit ladder *)

Lemma format_size_loop_stop (units : list string) (unit : string) (bytes : pynumber) :
  num_lt_1024 bytes = true ->
  format_size_loop (unit :: units) bytes = (s ← num_format_f 2 bytes; Ok (s +:+ unit)).
Proof. intros H. simpl. by rewrite H. Qed.

Lemma format_size_loop_step (units : list string) (unit : string) (bytes : pynumber) :
  num_lt_1024 bytes = false ->
  format_size_loop (unit :: units) bytes =
  (bytes' ← num_div_1024 bytes; format_size_loop units bytes').
Proof. intros H. simpl. by rewrite H. Qed.

Lemma format_size_loop_ladder (units : list string) (bytes v : pynumber) (k : nat) :
  (k <= length units)%nat ->
  divided k bytes = Ok v ->
  (forall j w, (j < k)%nat -> divided j bytes = Ok w -> num_lt_1024 w = false) ->
  ((k < length units)%nat -> num_lt_1024 v = true) ->
  format_size_loop units bytes =
  (s ← num_format_f 2 v; Ok (s +:+ (units ++ ["TB"]) !!! k)).
Proof.
  revert bytes k. induction units as [|unit units IH]; intros bytes k Hk Hv Hbefore Hstop.
  - assert (k = 0%nat) as -> by (simpl in Hk; lia).
    injection Hv as ->. reflexivity.
  - destruct k as [|k].
    + injection Hv as ->.
      rewrite format_size_loop_stop by (apply Hstop; simpl; lia). reflexivity.
    + rewrite format_size_loop_step by (by apply (Hbefore 0%nat); [lia|]).
      cbn [divided] in Hv.
      destruct (num_div_1024 bytes) as [b|e] eqn:Hdiv; [|done].
      cbn [mbind result_bind] in Hv |- *.
      rewrite (IH b k); [done | simpl in Hk; lia | done | | simpl in Hstop; intros; apply Hstop; lia].
      intros j w Hj Hw. apply (Hbefore (S j)); [lia|].
      cbn [divided]. by rewrite Hdiv.
Qed.

Lemma format_size_ladder (bytes v : pynumber) (k : nat) :
  (k <= 4)%nat ->
  divided k bytes = Ok v ->
  (forall j w, (j < k)%nat -> divided j bytes = Ok w -> num_lt_1024 w = false) ->
  ((k < 4)%nat -> num_lt_1024 v = true) ->
  format_size bytes = (s ← num_format_f 2 v; Ok (s +:+ ladder !!! k)).
Proof. apply (format_size_loop_ladder ["B"; "KB"; "MB"; "GB"]). Qed.

(** ** Reading the rows *)

Lemma float_field_raises (r : row) (key : string) (e : exn) :
  float_field r key = Raise e -> e = ValueError \/ e = TypeError.
Proof.
  unfold float_field.
  destruct (r !! key) as [[s|]|]; [destruct (float_of_str s)| |]; intros H;
    inversion H; auto.
Qed.

Lemma parse_numbers_both (r : row) (p c : float) :
  float_field r "price" = Ok p -> float_field r "change_24h" = Ok c ->
  parse_numbers r = Ok (p, c).
Proof. unfold parse_numbers. by intros -> ->. Qed.

Lemma parse_numbers_price_fails (r : row) (e : exn) :
  float_field r "price" = Raise e -> parse_numbers r = Ok (0%float, 0%float).
Proof.
  unfold parse_numbers. intros H. rewrite H.
  by destruct (float_field_raises _ _ _ H) as [-> | ->].
Qed.

Lemma parse_numbers_change_fails (r : row) (p : float) (e : exn) :
  float_field r "price" = Ok p -> float_field r "change_24h" = Raise e ->
  parse_numbers r = Ok (0%float, 0%float).
Proof.
  unfold parse_numbers. intros -> H. rewrite H.
  by destruct (float_field_raises _ _ _ H) as [-> | ->].
Qed.

Lemma parse_numbers_total (r : row) : exists p c, parse_numbers r = Ok (p, c).
Proof.
  destruct (float_field r "price") as [p|e] eqn:Hp.
  - destruct (float_field r "change_24h") as [c|e] eqn:Hc.
    + exists p, c. by apply parse_numbers_both.
    + exists 0%float, 0%float. by eapply parse_numbers_change_fails.
  - exists 0%float, 0%float. by eapply parse_numbers_price_fails.
Qed.

Lemma read_row_numbers (r : row) (p c : float) :
  parse_numbers r = Ok (p, c) ->
  read_row r = Ok {| timestamp := get (r !! "timestamp") (Some "");
                     name := get (r !! "name") (Some "");
                     symbol := get (r !! "symbol") (Some "");
                     price := p;
                     change_24h := c;
                     recommendation := get (r !! "recommendation") (Some "") |}.
Proof. unfold read_row. by intros ->. Qed.

Lemma read_row_total (r : row) : exists s, read_row r = Ok s.
Proof.
  destruct (parse_numbers_total r) as (p & c & H).
  eexists. by apply read_row_numbers.
Qed.

Lemma read_signals_spec (reader : list row) (acc : list signal) :
  exists signals,
    read_signals reader acc = Ok (acc ++ signals) /\
    Forall2 (fun r s => read_row r = Ok s) reader signals.
Proof.
  revert acc. induction reader as [|r reader IH]; intros acc; simpl.
  - exists []. by rewrite app_nil_r.
  - destruct (read_row_total r) as [s Hs]. rewrite Hs. simpl.
    destruct (IH (acc ++ [s])) as (signals & Hread & Hall).
    exists (s :: signals). split; [by rewrite Hread, <- app_assoc | by constructor].
Qed.

(** What [float] takes for a number, at the edges: white space at both
    ends, the non-ASCII one included, underscores between digits and the
    decimal digits of every script are accepted; the separators 0x1c to 0x1f,
    other letters and the empty text are not. *)
Lemma float_of_str_edges :
  float_of_str ("1.5" +:+ no_break_space) = Some 1.5%float /\
  float_of_str arabic_indic_3_2 = Some 3.2%float /\
  float_of_str (" 1_000.5e-3" +:+ newline) = Some 1.0005%float /\
  float_of_str (file_separator +:+ "1.5") = None /\
  float_of_str ("1.5" +:+ file_separator) = None /\
  float_of_str "1_" = None /\
  float_of_str "abc" = None /\
  float_of_str "" = None.
Proof. repeat split; vm_compute; reflexivity. Qed.

(** C4. A row whose price is not a number is kept: reading never raises,
    the list of signals has one entry per row, in row order, and the entry of
    such a row has price 0 and the text fields of the row. *)
Theorem malformed_price_is_zero (reader : list row) :
  exists signals,
    read_signals reader [] = Ok signals /\
    length signals = length reader /\
    forall (i : nat) (r : row) (text : string),
      reader !! i = Some r ->
      r !! "price" = Some (Some text) ->
      float_of_str text = None ->
      exists s,
        signals !! i = Some s /\
        price s = 0%float /\
        timestamp s = get (r !! "timestamp") (Some "") /\
        name s = get (r !! "name") (Some "") /\
        symbol s = get (r !! "symbol") (Some "") /\
        recommendation s = get (r !! "recommendation") (Some "").
Proof.
  destruct (read_signals_spec reader []) as (signals & Hread & Hall).
  exists signals. split; [done|].
  split; [symmetry; by eapply Forall2_length|].
  intros i r text Hi Hcell Hbad.
  destruct (Forall2_lookup_l _ _ _ _ _ Hall Hi) as (s & Hs & Hrow).
  exists s. split; [done|].
  assert (Hfield : float_field r "price" = Raise ValueError).
  { unfold float_field. by rewrite Hcell, Hbad. }
  rewrite (read_row_numbers r _ _ (parse_numbers_price_fails r _ Hfield)) in Hrow.
  by injection Hrow as <-.
Qed.

(** C10. When the price of a row converts and its 24h change does not,
    the price that was converted is dropped: the row is stored with price 0
    and change 0, since one handler covers both conversions. *)
Theorem valid_price_lost_with_bad_change
    (reader : list row) (i : nat) (r : row) (p : float) (e : exn) :
  reader !! i = Some r ->
  float_field r "price" = Ok p ->
  float_field r "change_24h" = Raise e ->
  exists signals s,
    read_signals reader [] = Ok signals /\
    signals !! i = Some s /\
    price s = 0%float /\
    change_24h s = 0%float.
Proof.
  intros Hi Hp Hc.
  destruct (read_signals_spec reader []) as (signals & Hread & Hall).
  destruct (Forall2_lookup_l _ _ _ _ _ Hall Hi) as (s & Hs & Hrow).
  exists signals, s. split; [done|]. split; [done|].
  rewrite (read_row_numbers r _ _ (parse_numbers_change_fails r p e Hp Hc)) in Hrow.
  by injection Hrow as <-.
Qed.

(** ** One refresh and the display loop *)

Lemma io_bind_ok {A B} (out : list event) (a : A) (k : A -> io B) :
  ((out, Ok a) ≫= k) = (out ++ fst (k a), snd (k a)).
Proof. unfold mbind, io_bind. by destruct (k a). Qed.

Lemma io_bind_raise {A B} (out : list event) (e : exn) (k : A -> io B) :
  ((out, Raise e) ≫= k) = (out, Raise e).
Proof. reflexivity. Qed.

Lemma io_bind_raises {A B} (m : io A) (k : A -> io B) (e : exn) :
  snd (m ≫= k) = Raise e ->
  snd m = Raise e \/ exists a, snd m = Ok a /\ snd (k a) = Raise e.
Proof.
  destruct m as [out [a|e']].
  - rewrite io_bind_ok. simpl. intros H. right. by exists a.
  - rewrite io_bind_raise. simpl. intros [= ->]. by left.
Qed.

Lemma insert_desc_raises (x : signal) (l : list signal) (e : exn) :
  insert_desc x l = Raise e -> e = TypeError.
Proof.
  induction l as [|y l IH]; simpl; [done|].
  destruct (timestamp x) as [kx|], (timestamp y) as [ky|]; simpl;
    try (by intros [= <-]).
  destruct (String.ltb kx ky); [|done].
  destruct (insert_desc x l); simpl; [done | intros [= <-]; by apply IH].
Qed.

Lemma sort_raises (l : list signal) (e : exn) :
  sort_by_timestamp_desc l = Raise e -> e = TypeError.
Proof.
  induction l as [|x l IH]; simpl; [done|].
  destruct (sort_by_timestamp_desc l) as [s|e']; simpl.
  - apply insert_desc_raises.
  - intros [= <-]. by apply IH.
Qed.

Lemma latest_signals_raises (reader : list row) (e : exn) :
  latest_signals reader = Raise e -> e = TypeError.
Proof.
  unfold latest_signals.
  destruct (read_signals_spec reader []) as (signals & -> & _). simpl.
  destruct (sort_by_timestamp_desc signals) eqn:Hsort; simpl; [done|].
  intros [= <-]. by eapply sort_raises.
Qed.

Lemma display_signal_raises (s : signal) (e : exn) :
  snd (display_signal s) = Raise e -> e = TypeError.
Proof.
  unfold display_signal. destruct (colour_and_change s) as [color change_str].
  destruct (name s), (recommendation s); simpl; by intros [= <-].
Qed.

Lemma display_signals_raises (l : list signal) (e : exn) :
  snd (display_signals l) = Raise e -> e = TypeError.
Proof.
  induction l as [|s l IH]; simpl; [done|].
  intros [H | (a & _ & H)]%io_bind_raises; [by eapply display_signal_raises | by apply IH].
Qed.

Lemma display_body_file_raises (e : exn) :
  display_body (Raise e) = ([], Raise e).
Proof. reflexivity. Qed.

Lemma emit_returns (ev : event) (e : exn) : snd (emit ev) = Raise e -> False.
Proof. discriminate. Qed.

Lemma display_table_raises (latest : list signal) (e : exn) :
  snd (display_table latest) = Raise e -> e = TypeError.
Proof.
  unfold display_table, print.
  repeat (intros [H | (? & _ & H)]%io_bind_raises;
          [by apply emit_returns in H | revert H]).
  intros [H | (? & _ & H)]%io_bind_raises.
  - by eapply display_signals_raises.
  - by apply emit_returns in H.
Qed.

Lemma display_body_rows_raises (reader : list row) (e : exn) :
  snd (display_body (Ok reader)) = Raise e -> e = TypeError.
Proof.
  unfold display_body.
  intros [H | (rd & Hrd & H)]%io_bind_raises; [discriminate H|].
  apply io_bind_raises in H as [H | (latest & _ & H)].
  - by apply (latest_signals_raises rd).
  - by eapply display_table_raises.
Qed.

Lemma refresh_returns (file : result (list row)) :
  file <> Raise KeyboardInterrupt ->
  snd (read_and_display_signals file) = Ok tt.
Proof.
  intros Hfile. unfold read_and_display_signals.
  destruct (display_body file) as [out [[]|e]] eqn:Hbody; [done|].
  assert (He : is_Exception e = true).
  { destruct file as [reader|e'].
    - assert (e = TypeError) as -> by (apply (display_body_rows_raises reader); by rewrite Hbody).
      done.
    - rewrite display_body_file_raises in Hbody. injection Hbody as _ <-.
      destruct e'; try done. }
  destruct e; try done.
Qed.

Lemma main_loop_trace (iterations : nat) (files : nat -> result (list row)) (i : nat) :
  (forall j, (i <= j < i + iterations)%nat -> files j <> Raise KeyboardInterrupt) ->
  main_loop iterations files i =
  (flat_map (fun j => fst (read_and_display_signals (files j)) ++ [Sleep 5])
            (seq i iterations), Ok tt).
Proof.
  revert i. induction iterations as [|n IH]; intros i Hfiles; [done|].
  cbn [main_loop seq flat_map].
  assert (Hret := refresh_returns (files i) (Hfiles i ltac:(lia))).
  destruct (read_and_display_signals (files i)) as [out r].
  cbn [snd] in Hret. subst r.
  rewrite io_bind_ok. unfold emit. rewrite io_bind_ok.
  rewrite IH by (intros j Hj; apply Hfiles; lia).
  cbn [fst snd]. by rewrite <- app_assoc.
Qed.

(** C5. With the input file missing, a refresh prints the one line
    ["Error: analysis_results.csv not found"] and returns; with any other
    exception of class [Exception] it prints one error line and returns; a
    refresh returns whenever no interrupt arrives.  The loop therefore goes
    on: whatever the state of the file at each refresh, every one of the
    iterations observed runs its refresh and sleeps 5 seconds. *)
Theorem missing_file_keeps_loop_running :
  read_and_display_signals (Raise FileNotFoundError) =
    ([Print "Error: analysis_results.csv not found"], Ok tt) /\
  (forall e, is_Exception e = true -> e <> FileNotFoundError ->
     read_and_display_signals (Raise e) = ([ErrorLine e], Ok tt)) /\
  (forall file, file <> Raise KeyboardInterrupt ->
     snd (read_and_display_signals file) = Ok tt) /\
  (forall iterations files,
     (forall j, (j < iterations)%nat -> files j <> Raise KeyboardInterrupt) ->
     main iterations files =
     (flat_map (fun j => fst (read_and_display_signals (files j)) ++ [Sleep 5])
               (seq 0 iterations), Ok tt)).
Proof.
  split; [reflexivity|].
  split; [by intros [] He Hne|].
  split; [exact refresh_returns|].
  intros n files Hfiles. apply main_loop_trace.
  intros j Hj. apply Hfiles. lia.
Qed.

(** ** The order of timestamps *)

Lemma ascii_compare_lt_trans (a b c : ascii) :
  Ascii.compare a b = Lt -> Ascii.compare b c = Lt -> Ascii.compare a c = Lt.
Proof. unfold Ascii.compare. rewrite !N.compare_lt_iff. lia. Qed.

Lemma str_compare_lt_trans (a b c : string) :
  String.compare a b = Lt -> String.compare b c = Lt -> String.compare a c = Lt.
Proof.
  revert b c. induction a as [|x a IH]; intros [|y b] [|z c]; cbn [String.compare]; try done.
  destruct (Ascii.compare x y) eqn:Hxy; try done.
  - apply Ascii.compare_eq_iff in Hxy as ->.
    destruct (Ascii.compare y z); try done. apply IH.
  - destruct (Ascii.compare y z) eqn:Hyz; try done.
    + apply Ascii.compare_eq_iff in Hyz as ->. by rewrite Hxy.
    + by rewrite (ascii_compare_lt_trans _ _ _ Hxy Hyz).
Qed.

Lemma str_ltb_asym (a b : string) :
  String.ltb a b = true -> String.ltb b a = false.
Proof.
  unfold String.ltb. rewrite (String.compare_antisym b a).
  by destruct (String.compare a b).
Qed.

(** [a < b] fails and [b < c] fails: then [a < c] fails. *)
Lemma str_not_ltb_trans (a b c : string) :
  String.ltb a b = false -> String.ltb b c = false -> String.ltb a c = false.
Proof.
  unfold String.ltb. intros Hab Hbc.
  destruct (String.compare a c) eqn:Hac; try done. exfalso.
  rewrite (String.compare_antisym a b) in Hab.
  destruct (String.compare b a) eqn:Hba; try done.
  - apply String.compare_eq_iff in Hba as ->. by rewrite Hac in Hbc.
  - by rewrite (str_compare_lt_trans _ _ _ Hba Hac) in Hbc.
Qed.

Lemma str_not_ltb_eq (a b : string) :
  String.ltb a b = false -> String.ltb b a = false -> a = b.
Proof.
  unfold String.ltb. rewrite (String.compare_antisym b a).
  destruct (String.compare a b) eqn:H; try done.
  intros _ _. by apply String.compare_eq_iff.
Qed.

(** ** Sorting by timestamp and keeping the latest entry of a token *)

Lemma key_lt_ok (a b : cell) (lt : bool) :
  key_lt a b = Ok lt ->
  exists s t, a = Some s /\ b = Some t /\ lt = String.ltb s t.
Proof.
  destruct a as [s|], b as [t|]; try discriminate.
  intros [= <-]. by exists s, t.
Qed.

Lemma head_filter_cons (token : cell) (y : signal) (l : list signal) :
  head (filter (fun v => name v = token) (y :: l)) =
  if decide (name y = token) then Some y
  else head (filter (fun v => name v = token) l).
Proof. rewrite filter_cons. by case_decide. Qed.

Lemma insert_desc_spec (x : signal) (s s' : list signal) :
  insert_desc x s = Ok s' ->
  StronglySorted (fun a b => not_older a b) s ->
  StronglySorted (fun a b => not_older a b) s' /\
  s' ≡ₚ x :: s /\
  forall token,
    head (filter (fun v => name v = token) s') =
    head_after_insert token x (head (filter (fun v => name v = token) s)).
Proof.
  revert s'. induction s as [|y rest IH]; intros s' Hins Hsorted.
  - injection Hins as <-. split; [repeat constructor|]. split; [done|].
    intros token. unfold head_after_insert. rewrite head_filter_cons.
    by case_decide.
  - cbn [insert_desc] in Hins.
    destruct (key_lt (timestamp x) (timestamp y)) as [lt|e] eqn:Hkey; [|done].
    apply key_lt_ok in Hkey as (kx & ky & Hx & Hy & ->).
    cbn [mbind result_bind] in Hins.
    apply StronglySorted_inv in Hsorted as [Hrest Hy_rest].
    destruct (String.ltb kx ky) eqn:Hlt.
    + destruct (insert_desc x rest) as [rest'|e] eqn:Hrest'; [|done].
      cbn [mbind result_bind] in Hins. injection Hins as <-.
      destruct (IH rest' eq_refl Hrest) as (Hsorted' & Hperm & Hhead).
      split; [|split].
      * constructor; [done|]. rewrite Hperm. constructor; [|done].
        unfold not_older. rewrite Hx, Hy. cbn [cell_ltb]. by apply str_ltb_asym.
      * rewrite Hperm. apply perm_swap.
      * intros token. rewrite !head_filter_cons, Hhead.
        unfold head_after_insert. repeat case_decide; try done.
        by rewrite Hx, Hy; cbn [cell_ltb]; rewrite Hlt.
    + injection Hins as <-.
      assert (Hx_all : Forall (fun z => not_older x z) (y :: rest)).
      { constructor.
        - unfold not_older. by rewrite Hx, Hy.
        - eapply Forall_impl; [exact Hy_rest|]. intros z. unfold not_older.
          rewrite Hx, Hy. destruct (timestamp z) as [kz|]; cbn [cell_ltb]; [|done].
          intros Hyz. by apply (str_not_ltb_trans kx ky kz). }
      split; [by constructor; [constructor|]|]. split; [done|].
      intros token. rewrite (head_filter_cons token x).
      unfold head_after_insert. case_decide; [|done].
      destruct (head (filter (fun v => name v = token) (y :: rest))) as [best|] eqn:Hbest; [|done].
      apply head_Some_elem_of, list_elem_of_filter in Hbest as [_ Hbest].
      rewrite Forall_forall in Hx_all. specialize (Hx_all best Hbest).
      unfold not_older in Hx_all. by rewrite Hx_all.
Qed.

Lemma most_recent_cons (token : cell) (x : signal) (l : list signal) :
  most_recent token (x :: l) = head_after_insert token x (most_recent token l).
Proof. reflexivity. Qed.

Lemma sort_spec (l s : list signal) :
  sort_by_timestamp_desc l = Ok s ->
  StronglySorted (fun a b => not_older a b) s /\
  s ≡ₚ l /\
  forall token, head (filter (fun v => name v = token) s) = most_recent token l.
Proof.
  revert s. induction l as [|x l IH]; intros s Hsort.
  - injection Hsort as <-. split; [constructor|]. by split.
  - cbn [sort_by_timestamp_desc] in Hsort.
    destruct (sort_by_timestamp_desc l) as [s0|e]; [|done].
    cbn [mbind result_bind] in Hsort.
    destruct (IH s0 eq_refl) as (Hsorted & Hperm & Hhead).
    destruct (insert_desc_spec x s0 s Hsort Hsorted) as (Hsorted' & Hperm' & Hhead').
    split; [done|]. split; [by rewrite Hperm', Hperm|].
    intros token. by rewrite Hhead', Hhead, most_recent_cons.
Qed.

(** The sort succeeds on a list of at most one entry, and otherwise only
    when every timestamp is a string. *)
Lemma sort_ok_keys (l s : list signal) :
  sort_by_timestamp_desc l = Ok s ->
  (length l <= 1)%nat \/ Forall (fun v => is_Some (timestamp v)) l.
Proof.
  revert s. induction l as [|x l IH]; intros s Hsort; [left; simpl; lia|].
  cbn [sort_by_timestamp_desc] in Hsort.
  destruct (sort_by_timestamp_desc l) as [s0|e] eqn:Hl; [|done].
  cbn [mbind result_bind] in Hsort.
  destruct (sort_spec l s0 Hl) as (_ & Hperm & _).
  destruct s0 as [|y s0].
  - apply Permutation_nil_l in Hperm as <-. left. simpl. lia.
  - cbn [insert_desc] in Hsort.
    destruct (key_lt (timestamp x) (timestamp y)) as [lt|e] eqn:Hkey; [|done].
    apply key_lt_ok in Hkey as (kx & ky & Hx & Hy & _).
    right. constructor; [by rewrite Hx|].
    destruct (IH _ eq_refl) as [Hlen|Hall]; [|done].
    destruct l as [|z [|? ?]]; [done| |simpl in Hlen; lia].
    apply Permutation_length in Hperm as Hlen'.
    destruct s0; [|done]. apply Permutation_singleton_l in Hperm as [= <-].
    constructor; [by rewrite Hy | constructor].
Qed.

Lemma insert_desc_total (x : signal) (s : list signal) :
  is_Some (timestamp x) -> Forall (fun v => is_Some (timestamp v)) s ->
  exists s', insert_desc x s = Ok s'.
Proof.
  intros [kx Hx]. induction s as [|y s IH]; intros Hall; [by eexists|].
  apply Forall_cons in Hall as [[ky Hy] Hall].
  cbn [insert_desc]. rewrite Hx, Hy. cbn [key_lt mbind result_bind].
  destruct (String.ltb kx ky); [|by eexists].
  destruct (IH Hall) as [s' ->]. by eexists.
Qed.

Lemma sort_total (l : list signal) :
  Forall (fun v => is_Some (timestamp v)) l ->
  exists s, sort_by_timestamp_desc l = Ok s.
Proof.
  induction l as [|x l IH]; intros Hall; [by eexists|].
  apply Forall_cons in Hall as [Hx Hall].
  destruct (IH Hall) as [s Hs]. cbn [sort_by_timestamp_desc]. rewrite Hs.
  cbn [mbind result_bind]. apply insert_desc_total; [done|].
  destruct (sort_spec l s Hs) as (_ & Hperm & _). by rewrite Hperm.
Qed.

Lemma latest_loop_spec (l : list signal) (seen : gset cell) (acc : list signal) :
  latest_loop l seen acc =
  acc ++ first_by name (filter (fun s => name s ∉ seen) l).
Proof.
  revert seen acc. induction l as [|s l IH]; intros seen acc; cbn [latest_loop].
  - by rewrite app_nil_r.
  - rewrite filter_cons. destruct (decide (name s ∉ seen)) as [Hnin|Hin].
    + rewrite IH. cbn [first_by]. rewrite <- app_assoc. cbn [app]. do 2 f_equal.
      rewrite (filter_first_by name), list_filter_filter.
      f_equal. apply list_filter_iff. intros v. set_solver.
    + apply IH.
Qed.

Lemma latest_loop_first_by (l : list signal) :
  latest_loop l ∅ [] = first_by name l.
Proof.
  rewrite latest_loop_spec. cbn [app]. f_equal.
  induction l as [|s l IH]; [done|].
  rewrite filter_cons, decide_True by set_solver. by f_equal.
Qed.

Lemma most_recent_None (token : cell) (l : list signal) :
  most_recent token l = None -> forall v, v ∈ l -> name v <> token.
Proof.
  induction l as [|x l IH]; [by intros _ v ?%elem_of_nil|].
  rewrite most_recent_cons. unfold head_after_insert.
  case_decide as Hx.
  - destruct (most_recent token l) as [best|]; [by case_match | done].
  - intros Hl v [->|Hv]%elem_of_cons; [done | by apply IH].
Qed.

(** The entry that [most_recent] returns: every entry of the token has a
    lower timestamp, or the same timestamp and a later position. *)
Lemma most_recent_spec (token : cell) (l : list signal) (w : signal) :
  Forall (fun v => is_Some (timestamp v)) l ->
  most_recent token l = Some w ->
  exists i : nat,
    l !! i = Some w /\ name w = token /\
    forall (j : nat) (v : signal), l !! j = Some v -> name v = token ->
      cell_ltb (timestamp v) (timestamp w) = true \/
      (timestamp v = timestamp w /\ (i <= j)%nat).
Proof.
  revert w. induction l as [|x l IH]; intros w Hall; [done|].
  apply Forall_cons in Hall as [[kx Hx] Hall].
  rewrite most_recent_cons. unfold head_after_insert.
  case_decide as Hname.
  - destruct (most_recent token l) as [best|] eqn:Hbest.
    + destruct (IH best Hall eq_refl) as (i & Hi & Hn & Hmax).
      assert (Hb : is_Some (timestamp best)).
      { rewrite Forall_forall in Hall. apply Hall. by eapply list_elem_of_lookup_2. }
      destruct Hb as [kb Hb].
      destruct (cell_ltb (timestamp x) (timestamp best)) eqn:Hlt; intros [= <-].
      * exists (S i). split; [done|]. split; [done|].
        intros [|j] v Hv Hv_name.
        -- injection Hv as <-. by left.
        -- destruct (Hmax j v Hv Hv_name) as [?|[? ?]]; [by left | right; split; [done | lia]].
      * exists 0%nat. split; [done|]. split; [done|].
        intros [|j] v Hv Hv_name.
        -- injection Hv as <-. right. split; [done | lia].
        -- assert (Hkv : is_Some (timestamp v)).
           { rewrite Forall_forall in Hall. apply Hall. by eapply list_elem_of_lookup_2. }
           destruct Hkv as [kv Hkv].
           rewrite Hx, Hb in Hlt. rewrite Hkv, Hx. cbn [cell_ltb] in Hlt |- *.
           destruct (String.ltb kv kx) eqn:Hvx; [by left|]. right.
           split; [|lia]. f_equal. apply str_not_ltb_eq; [done|].
           destruct (Hmax j v Hv Hv_name) as [Hvb|[Hvb _]].
           ++ rewrite Hkv, Hb in Hvb. cbn [cell_ltb] in Hvb.
              apply (str_not_ltb_trans kx kb kv); [done | by apply str_ltb_asym].
           ++ rewrite Hkv, Hb in Hvb. by injection Hvb as ->.
    + intros [= <-]. exists 0%nat. split; [done|]. split; [done|].
      intros [|j] v Hv Hv_name.
      * injection Hv as <-. right. split; [done | lia].
      * exfalso. eapply (most_recent_None token l Hbest v); [|done].
        by eapply list_elem_of_lookup_2.
  - intros Hw. destruct (IH w Hall Hw) as (i & Hi & Hn & Hmax).
    exists (S i). split; [done|]. split; [done|].
    intros [|j] v Hv Hv_name.
    + injection Hv as <-. done.
    + destruct (Hmax j v Hv Hv_name) as [?|[? ?]]; [by left | right; split; [done | lia]].
Qed.

Lemma latest_signals_unfold (reader : list row) (signals : list signal) :
  read_signals reader [] = Ok signals ->
  latest_signals reader =
  (sorted ← sort_by_timestamp_desc signals; Ok (latest_loop sorted ∅ [])).
Proof. unfold latest_signals. by intros ->. Qed.

(** C2. For every token name of the input, the list of latest signals has
    exactly one entry with that name, and it is the entry of that name with
    the greatest timestamp, the earliest row of the file among those that
    share it: every other row of the token has a lower timestamp, or the same
    timestamp and a later position.  The list is produced whenever every row
    has a timestamp string. *)
Theorem latest_signal_per_token (reader : list row) :
  exists signals,
    read_signals reader [] = Ok signals /\
    (Forall (fun s => is_Some (timestamp s)) signals ->
     exists latest, latest_signals reader = Ok latest) /\
    forall latest, latest_signals reader = Ok latest ->
      NoDup (name <$> latest) /\
      forall s, s ∈ signals ->
        exists (i : nat) (w : signal),
          signals !! i = Some w /\ name w = name s /\
          filter (fun v => name v = name s) latest = [w] /\
          forall (j : nat) (v : signal),
            signals !! j = Some v -> name v = name s ->
            cell_ltb (timestamp v) (timestamp w) = true \/
            (timestamp v = timestamp w /\ (i <= j)%nat).
Proof.
  destruct (read_signals_spec reader []) as (signals & Hread & _).
  exists signals. split; [done|].
  rewrite (latest_signals_unfold reader signals Hread). split.
  - intros Hall. destruct (sort_total signals Hall) as [sorted ->]. by eexists.
  - intros latest Hlatest.
    destruct (sort_by_timestamp_desc signals) as [sorted|e] eqn:Hsort; [|done].
    injection Hlatest as <-. rewrite latest_loop_first_by.
    split; [apply first_by_NoDup|].
    intros s Hs.
    destruct (sort_spec signals sorted Hsort) as (_ & _ & Hhead).
    rewrite (filter_key_first_by name), Hhead.
    destruct (most_recent (name s) signals) as [w|] eqn:Hw;
      [|by destruct (most_recent_None _ _ Hw s Hs)].
    destruct (sort_ok_keys signals sorted Hsort) as [Hlen|Hall].
    + destruct signals as [|x [|? ?]]; [by apply elem_of_nil in Hs| |simpl in Hlen; lia].
      apply list_elem_of_singleton in Hs as <-.
      rewrite most_recent_cons in Hw. unfold head_after_insert in Hw.
      rewrite decide_True in Hw by done. injection Hw as <-.
      exists 0%nat, s. repeat split; try done.
      intros [|j] v Hv _; [|done]. injection Hv as <-. right. split; [done | lia].
    + destruct (most_recent_spec _ _ w Hall Hw) as (i & Hi & Hn & Hmax).
      by exists i, w.
Qed.

(** ** Exact binary64 arithmetic on byte counts *)

Lemma compare_cont_Eq (p q : positive) :
  Pos.compare_cont Eq p q = (p ?= q)%positive.
Proof. reflexivity. Qed.

Lemma digits2_pos_bounds (p : positive) :
  2 ^ (Z.pos (digits2_pos p) - 1) <= Z.pos p < 2 ^ Z.pos (digits2_pos p).
Proof.
  induction p as [p IH|p IH|]; cbn [digits2_pos].
  - rewrite Pos2Z.inj_succ.
    replace (Z.succ (Z.pos (digits2_pos p)) - 1) with (Z.succ (Z.pos (digits2_pos p) - 1)) by lia.
    rewrite !Z.pow_succ_r by lia. lia.
  - rewrite Pos2Z.inj_succ.
    replace (Z.succ (Z.pos (digits2_pos p)) - 1) with (Z.succ (Z.pos (digits2_pos p) - 1)) by lia.
    rewrite !Z.pow_succ_r by lia. lia.
  - cbn. lia.
Qed.

Lemma digits2_pos_unique (p : positive) (d : Z) :
  2 ^ (d - 1) <= Z.pos p < 2 ^ d -> Z.pos (digits2_pos p) = d.
Proof.
  intros [Hlo Hhi]. pose proof (digits2_pos_bounds p) as [Hlo' Hhi'].
  assert (0 < d).
  { destruct (Z.lt_ge_cases 0 d); [done|].
    assert (2 ^ d <= 2 ^ 0) by (apply Z.pow_le_mono_r; lia). simpl in *. lia. }
  destruct (Z.lt_trichotomy (Z.pos (digits2_pos p)) d) as [Hlt|[Heq|Hgt]]; [|done|].
  - assert (2 ^ Z.pos (digits2_pos p) <= 2 ^ (d - 1)) by (apply Z.pow_le_mono_r; lia). lia.
  - assert (2 ^ d <= 2 ^ (Z.pos (digits2_pos p) - 1)) by (apply Z.pow_le_mono_r; lia). lia.
Qed.

Lemma digits2_pos_shift (p : positive) (k : Z) :
  0 <= k ->
  Z.pos (digits2_pos (Z.to_pos (Z.pos p * 2 ^ k))) = Z.pos (digits2_pos p) + k.
Proof.
  intros Hk. pose proof (digits2_pos_bounds p) as [Hlo Hhi].
  assert (Hpow : 0 < 2 ^ k) by (apply Z.pow_pos_nonneg; lia).
  apply digits2_pos_unique. rewrite Z2Pos.id by lia.
  replace (Z.pos (digits2_pos p) + k - 1) with ((Z.pos (digits2_pos p) - 1) + k) by lia.
  rewrite !Z.pow_add_r by lia. split; nia.
Qed.

Lemma digits2_pos_le (p : positive) (k : Z) :
  0 <= k -> (Z.pos (digits2_pos p) <= k <-> Z.pos p < 2 ^ k).
Proof.
  intros Hk. pose proof (digits2_pos_bounds p) as [Hlo Hhi]. split; intros H.
  - assert (2 ^ Z.pos (digits2_pos p) <= 2 ^ k) by (apply Z.pow_le_mono_r; lia). lia.
  - destruct (Z.le_gt_cases (Z.pos (digits2_pos p)) k); [done|].
    assert (2 ^ k <= 2 ^ (Z.pos (digits2_pos p) - 1)) by (apply Z.pow_le_mono_r; lia). lia.
Qed.

(** rounding of an exact mantissa *)
Lemma binary_round_aux_53 (m : positive) (e : Z) :
  Z.pos (digits2_pos m) = 53 -> -1074 <= e <= 971 ->
  binary_round_aux prec emax false (Z.pos m) e loc_Exact = S754_finite false m e.
Proof.
  intros Hd He. unfold binary_round_aux, shr_fexp, Zdigits2.
  rewrite Hd.
  assert (Hf : fexp prec emax (53 + e) - e = 0) by (unfold fexp, SpecFloat.emin, prec, emax; lia).
  rewrite Hf. cbn [shr shr_record_of_loc shr_m loc_of_shr_record round_nearest_even].
  unfold Zdigits2. rewrite Hd, Hf. cbn [shr shr_record_of_loc shr_m].
  assert (Hle : (e <=? emax - prec) = true) by (unfold prec, emax; lia).
  by rewrite Hle.
Qed.

Lemma binary_round_aux_54 (m : positive) (e : Z) :
  Z.pos (digits2_pos m) = 53 -> -1075 <= e <= 970 ->
  binary_round_aux prec emax false (Z.pos m~0) e loc_Exact = S754_finite false m (e + 1).
Proof.
  intros Hd He. unfold binary_round_aux, shr_fexp.
  assert (Hd' : Zdigits2 (Z.pos m~0) = 54).
  { cbn [Zdigits2 digits2_pos]. rewrite Pos2Z.inj_succ. lia. }
  rewrite Hd'.
  assert (Hf : fexp prec emax (54 + e) - e = 1) by (unfold fexp, SpecFloat.emin, prec, emax; lia).
  rewrite Hf. cbn [shr shr_record_of_loc SpecFloat.iter_pos shr_1 shr_m shr_r shr_s orb loc_of_shr_record round_nearest_even].
  unfold Zdigits2. rewrite Hd.
  assert (Hf' : fexp prec emax (53 + (e + 1)) - (e + 1) = 0) by (unfold fexp, SpecFloat.emin, prec, emax; lia).
  rewrite Hf'. cbn [shr shr_record_of_loc shr_m].
  assert (Hle : (e + 1 <=? emax - prec) = true) by (unfold prec, emax; lia).
  by rewrite Hle.
Qed.

Lemma mantissa53_value (n : positive) :
  Z.pos (digits2_pos n) <= 53 ->
  Z.pos (mantissa53 n) = Z.pos n * 2 ^ (53 - Z.pos (digits2_pos n)).
Proof.
  intros Hd. unfold mantissa53. rewrite Z2Pos.id; [done|].
  apply Z.mul_pos_pos; [done | apply Z.pow_pos_nonneg; lia].
Qed.

Lemma mantissa53_digits (n : positive) :
  Z.pos (digits2_pos n) <= 53 -> Z.pos (digits2_pos (mantissa53 n)) = 53.
Proof.
  intros Hd. unfold mantissa53. rewrite digits2_pos_shift by lia. lia.
Qed.

Lemma iter_xO_value (n k : positive) :
  Z.pos (Pos.iter xO n k) = Z.pos n * 2 ^ Z.pos k.
Proof.
  induction k as [|k IH] using Pos.peano_ind.
  - cbn. lia.
  - rewrite Pos.iter_succ, Pos2Z.inj_succ, Z.pow_succ_r by lia.
    rewrite Pos2Z.inj_xO, IH. lia.
Qed.

Lemma div_eucl_exact (a b : Z) :
  0 < b -> Z.div_eucl (a * b) b = (a, 0).
Proof.
  intros Hb.
  assert (H : Z.div_eucl (a * b) b = ((a * b) / b, (a * b) mod b)).
  { unfold Z.div, Z.modulo. by destruct (Z.div_eucl (a * b) b). }
  rewrite H, Z.div_mul, Z.mod_mul by lia. done.
Qed.

(** [float(n)] is exact for an integer of at most 53 bits. *)
Lemma binary_normalize_exact (n : positive) :
  Z.pos (digits2_pos n) <= 53 ->
  binary_normalize prec emax (Z.pos n) 0 false = dyadic n 0.
Proof.
  intros Hd. pose proof (mantissa53_digits n Hd) as Hm.
  pose proof (mantissa53_value n Hd) as Hv.
  assert (Hpos : 0 < Z.pos (digits2_pos n)) by lia.
  unfold binary_normalize, binary_round, shl_align, dyadic.
  assert (Hf : fexp prec emax (Z.pos (digits2_pos n) + 0) - 0 = Z.pos (digits2_pos n) - 53)
    by (unfold fexp, SpecFloat.emin, prec, emax; lia).
  rewrite Hf.
  assert (Hf' : fexp prec emax (Z.pos (digits2_pos n) + 0) = Z.pos (digits2_pos n) - 53)
    by (unfold fexp, SpecFloat.emin, prec, emax; lia).
  rewrite Hf'.
  destruct (Z.pos (digits2_pos n) - 53) as [|k|k] eqn:Hk; [|lia|].
  - assert (mantissa53 n = n) as Hn.
    { apply Pos2Z.inj. rewrite Hv. replace (53 - Z.pos (digits2_pos n)) with 0 by lia. lia. }
    rewrite <- Hn at 1. rewrite binary_round_aux_53 by (done || lia).
    f_equal; lia.
  - assert (Pos.iter xO n k = mantissa53 n) as ->.
    { apply Pos2Z.inj. rewrite Hv, iter_xO_value. f_equal. f_equal. lia. }
    rewrite binary_round_aux_53 by (done || lia). f_equal; lia.
Qed.

Lemma SFdiv_core_exact (m1 m2 q : positive) (e1 e2 : Z) :
  let d1 := Z.pos (digits2_pos m1) in
  let d2 := Z.pos (digits2_pos m2) in
  let e' := Z.min (fexp prec emax (d1 + e1 - (d2 + e2))) (e1 - e2) in
  0 < e1 - e2 - e' ->
  Z.pos m1 * 2 ^ (e1 - e2 - e') = Z.pos q * Z.pos m2 ->
  Z.even (Z.pos m2) = true ->
  SFdiv_core_binary prec emax (Z.pos m1) e1 (Z.pos m2) e2 = (Z.pos q, e', loc_Exact).
Proof.
  intros d1 d2 e' Hs Hq Heven. unfold SFdiv_core_binary.
  change (Zdigits2 (Z.pos m1)) with d1. change (Zdigits2 (Z.pos m2)) with d2.
  fold e'. destruct (e1 - e2 - e') as [|s|s] eqn:Hse; [lia| |lia].
  rewrite Z.shiftl_mul_pow2 by lia. rewrite Hq, div_eucl_exact by lia.
  unfold new_location. rewrite Heven. reflexivity.
Qed.

(** [n / 1024] on integers is exact for [n] of at most 53 bits. *)
Lemma SFdiv_int_1024 (n : positive) :
  Z.pos (digits2_pos n) <= 53 ->
  SFdiv prec emax (S754_finite false n 0) (S754_finite false 1024 0) = dyadic n 10.
Proof.
  intros Hd. pose proof (mantissa53_digits n Hd) as Hm.
  pose proof (mantissa53_value n Hd) as Hv.
  assert (Hpos : 0 < Z.pos (digits2_pos n)) by lia.
  unfold SFdiv.
  rewrite (SFdiv_core_exact n 1024 (mantissa53 n)~0 0 0).
  - change (digits2_pos 1024) with 11%positive.
    assert (He' : Z.min (fexp prec emax (Z.pos (digits2_pos n) + 0 - (11 + 0))) (0 - 0)
                  = Z.pos (digits2_pos n) - 64)
      by (unfold fexp, SpecFloat.emin, prec, emax; lia).
    rewrite He'. cbn [xorb]. rewrite binary_round_aux_54 by (done || lia).
    unfold dyadic. f_equal; lia.
  - change (digits2_pos 1024) with 11%positive.
    unfold fexp, SpecFloat.emin, prec, emax; lia.
  - change (digits2_pos 1024) with 11%positive.
    assert (He' : 0 - 0 - Z.min (fexp prec emax (Z.pos (digits2_pos n) + 0 - (11 + 0))) (0 - 0)
                  = (53 - Z.pos (digits2_pos n)) + 11)
      by (unfold fexp, SpecFloat.emin, prec, emax; lia).
    rewrite He', Z.pow_add_r by lia. rewrite (Pos2Z.inj_xO (mantissa53 n)), Hv.
    change (2 ^ 11) with 2048. lia.
  - reflexivity.
Qed.

(** [x / 1024.0] only lowers the exponent of a 53-bit mantissa. *)
Lemma SFdiv_float_1024 (m : positive) (e : Z) :
  Z.pos (digits2_pos m) = 53 -> -1063 <= e <= 971 ->
  SFdiv prec emax (S754_finite false m e) (S754_finite false 4503599627370496 (-42)) =
  S754_finite false m (e - 10).
Proof.
  intros Hd He. unfold SFdiv.
  rewrite (SFdiv_core_exact m 4503599627370496 m~0 e (-42)).
  - change (digits2_pos 4503599627370496) with 53%positive. rewrite Hd.
    assert (He' : Z.min (fexp prec emax (53 + e - (53 + -42))) (e - -42) = e - 11)
      by (unfold fexp, SpecFloat.emin, prec, emax; lia).
    rewrite He'. cbn [xorb]. rewrite binary_round_aux_54 by (done || lia).
    f_equal; lia.
  - change (digits2_pos 4503599627370496) with 53%positive. rewrite Hd.
    unfold fexp, SpecFloat.emin, prec, emax; lia.
  - change (digits2_pos 4503599627370496) with 53%positive. rewrite Hd.
    assert (He' : e - -42 - Z.min (fexp prec emax (53 + e - (53 + -42))) (e - -42) = 53)
      by (unfold fexp, SpecFloat.emin, prec, emax; lia).
    rewrite He'. rewrite (Pos2Z.inj_xO m). change (2 ^ 53) with 9007199254740992. lia.
  - reflexivity.
Qed.

Lemma dyadic_div_1024 (n : positive) (t : Z) :
  Z.pos (digits2_pos n) <= 53 -> 0 <= t <= 1000 ->
  SFdiv prec emax (dyadic n t) (Prim2SF 1024) = dyadic n (t + 10).
Proof.
  intros Hd Ht. change (Prim2SF 1024) with (S754_finite false 4503599627370496 (-42)).
  unfold dyadic. rewrite SFdiv_float_1024; [f_equal; lia | by apply mantissa53_digits | lia].
Qed.

Lemma dyadic_valid (n : positive) (t : Z) :
  Z.pos (digits2_pos n) <= 53 -> 0 <= t <= 1000 ->
  valid_binary (dyadic n t) = true.
Proof.
  intros Hd Ht. unfold dyadic, valid_binary, SpecFloat.valid_binary, bounded, canonical_mantissa.
  rewrite mantissa53_digits by done.
  unfold fexp, SpecFloat.emin, prec, emax.
  apply andb_true_iff. split; lia.
Qed.

Lemma dyadic_lt_1024 (n : positive) (t : Z) :
  Z.pos (digits2_pos n) <= 53 -> 0 <= t ->
  SFltb (dyadic n t) (Prim2SF 1024) = (Z.pos n <? 2 ^ (t + 10)).
Proof.
  intros Hd Ht. change (Prim2SF 1024) with (S754_finite false 4503599627370496 (-42)).
  pose proof (mantissa53_digits n Hd) as Hm.
  pose proof (digits2_pos_bounds (mantissa53 n)) as [Hlo _]. rewrite Hm in Hlo.
  change (2 ^ (53 - 1)) with 4503599627370496 in Hlo.
  assert (Hdec : (Z.pos n <? 2 ^ (t + 10)) = (Z.pos (digits2_pos n) <=? t + 10)).
  { pose proof (digits2_pos_le n (t + 10) ltac:(lia)) as Hle.
    destruct (Z.ltb_spec (Z.pos n) (2 ^ (t + 10))) as [Hn|Hn]; symmetry.
    - apply Z.leb_le. by apply Hle.
    - apply Z.leb_gt. destruct (Z.le_gt_cases (Z.pos (digits2_pos n)) (t + 10)) as [H|H]; [|done].
      apply Hle in H. lia. }
  rewrite Hdec. unfold dyadic, SFltb, SFcompare.
  generalize dependent (mantissa53 n). intros m _ Hlo.
  rewrite compare_cont_Eq.
  destruct (Z.compare_spec (Z.pos (digits2_pos n) - 53 - t) (-42)) as [Heq|Hlt|Hgt].
  - destruct (m ?= 4503599627370496)%positive eqn:Hc.
    + symmetry; apply Z.leb_gt; lia.
    + apply (proj1 (Pos.compare_lt_iff _ _)), Pos2Z.pos_lt_pos in Hc. lia.
    + symmetry; apply Z.leb_gt; lia.
  - symmetry. apply Z.leb_le. lia.
  - symmetry. apply Z.leb_gt. lia.
Qed.

Lemma round_half_even_scale (a b c : Z) :
  0 < b -> 0 < c -> round_half_even (a * c) (b * c) = round_half_even a b.
Proof.
  intros Hb Hc. unfold round_half_even.
  rewrite Z.div_mul_cancel_r, Z.mul_mod_distr_r by lia.
  replace (2 * (a mod b * c)) with (2 * (a mod b) * c) by lia.
  by rewrite <- Zmult_compare_compat_r by lia.
Qed.

Lemma round_half_even_one (a : Z) : round_half_even a 1 = a.
Proof. unfold round_half_even. by rewrite Z.div_1_r, Z.mod_1_r. Qed.

Lemma scaled_dyadic (n : positive) (t : Z) :
  Z.pos (digits2_pos n) <= 53 -> 0 <= t ->
  scaled 2 (mantissa53 n) (Z.pos (digits2_pos n) - 53 - t) =
  round_half_even (100 * Z.pos n) (2 ^ t).
Proof.
  intros Hd Ht. unfold scaled. rewrite (mantissa53_value n Hd).
  change (10 ^ Z.of_nat 2) with 100.
  destruct (Z.leb_spec 0 (Z.pos (digits2_pos n) - 53 - t)) as [He|He].
  - replace t with 0 by lia.
    replace (53 - Z.pos (digits2_pos n)) with 0 by lia.
    replace (Z.pos (digits2_pos n) - 53 - 0) with 0 by lia.
    change (2 ^ 0) with 1. rewrite round_half_even_one. lia.
  - replace (- (Z.pos (digits2_pos n) - 53 - t)) with (t + (53 - Z.pos (digits2_pos n))) by lia.
    rewrite Z.pow_add_r by lia.
    replace (Z.pos n * 2 ^ (53 - Z.pos (digits2_pos n)) * 100)
      with (100 * Z.pos n * 2 ^ (53 - Z.pos (digits2_pos n))) by lia.
    apply round_half_even_scale; apply Z.pow_pos_nonneg; lia.
Qed.

(** The text of a float that holds [n / 2^t] exactly. *)
Lemma format_f_dyadic (x : float) (n : positive) (t : Z) :
  Z.pos (digits2_pos n) <= 53 -> 0 <= t ->
  Prim2SF x = dyadic n t ->
  format_f 2 x = two_places (Z.pos n) (2 ^ t).
Proof.
  intros Hd Ht Hx. unfold format_f, two_places. rewrite Hx. unfold dyadic.
  by rewrite scaled_dyadic.
Qed.

Lemma float_of_int_exact (n : positive) :
  Z.pos (digits2_pos n) <= 53 ->
  exists x, float_of_int (Z.pos n) = Ok x /\ Prim2SF x = dyadic n 0.
Proof.
  intros Hd. unfold float_of_int. rewrite (binary_normalize_exact n Hd).
  exists (SF2Prim (dyadic n 0)). split; [done|].
  apply Prim2SF_SF2Prim, dyadic_valid; [done | lia].
Qed.

Lemma int_true_divide_exact (n : positive) :
  Z.pos (digits2_pos n) <= 53 ->
  exists x, int_true_divide (Z.pos n) 1024 = Ok x /\ Prim2SF x = dyadic n 10.
Proof.
  intros Hd. unfold int_true_divide.
  change (Z.to_pos 1024) with 1024%positive. rewrite (SFdiv_int_1024 n Hd).
  exists (SF2Prim (dyadic n 10)). split; [done|].
  apply Prim2SF_SF2Prim, dyadic_valid; [done | lia].
Qed.

Lemma float_div_1024_exact (x : float) (n : positive) (t : Z) :
  Z.pos (digits2_pos n) <= 53 -> 0 <= t <= 1000 ->
  Prim2SF x = dyadic n t ->
  Prim2SF (x / 1024) = dyadic n (t + 10).
Proof.
  intros Hd Ht Hx. rewrite div_spec, Hx. by apply dyadic_div_1024.
Qed.

Lemma float_lt_1024_exact (x : float) (n : positive) (t : Z) :
  Z.pos (digits2_pos n) <= 53 -> 0 <= t ->
  Prim2SF x = dyadic n t ->
  PrimFloat.ltb x 1024 = (Z.pos n <? 2 ^ (t + 10)).
Proof.
  intros Hd Ht Hx. rewrite FloatAxioms.ltb_spec, Hx. by apply dyadic_lt_1024.
Qed.

Lemma format_size_exact (n : Z) :
  0 <= n < 2 ^ 53 ->
  format_size (Int n) =
  Ok (two_places n (1024 ^ Z.of_nat (unit_index n)) +:+ ladder !!! unit_index n).
Proof.
  intros [Hlo Hhi]. destruct n as [|p|p]; [reflexivity| |lia].
  assert (Hd : Z.pos (digits2_pos p) <= 53) by (apply digits2_pos_le; lia).
  unfold format_size, unit_index.
  change (1024 ^ 2) with (2 ^ (10 + 10)).
  change (1024 ^ 3) with (2 ^ (10 + 10 + 10)).
  change (1024 ^ 4) with (2 ^ (10 + 10 + 10 + 10)).
  cbn [format_size_loop num_lt_1024].
  destruct (Z.pos p <? 1024) eqn:H0.
  { cbn [num_format_f]. destruct (float_of_int_exact p Hd) as (x & -> & Hx).
    cbn [mbind result_bind]. by rewrite (format_f_dyadic x p 0 Hd ltac:(lia) Hx). }
  cbn [num_div_1024]. destruct (int_true_divide_exact p Hd) as (x1 & -> & Hx1).
  cbn [mbind result_bind format_size_loop num_lt_1024].
  rewrite (float_lt_1024_exact x1 p 10 Hd ltac:(lia) Hx1).
  destruct (Z.pos p <? 2 ^ (10 + 10)) eqn:H1.
  { cbn [num_format_f mbind result_bind].
    by rewrite (format_f_dyadic x1 p 10 Hd ltac:(lia) Hx1). }
  pose proof (float_div_1024_exact x1 p 10 Hd ltac:(lia) Hx1) as Hx2.
  cbn [num_div_1024 mbind result_bind format_size_loop num_lt_1024].
  rewrite (float_lt_1024_exact _ p (10 + 10) Hd ltac:(lia) Hx2).
  destruct (Z.pos p <? 2 ^ (10 + 10 + 10)) eqn:H2.
  { cbn [num_format_f mbind result_bind].
    rewrite (format_f_dyadic _ p (10 + 10) Hd ltac:(lia) Hx2).
    by change (1024 ^ Z.of_nat 2) with (2 ^ (10 + 10)). }
  pose proof (float_div_1024_exact _ p (10 + 10) Hd ltac:(lia) Hx2) as Hx3.
  cbn [num_div_1024 mbind result_bind format_size_loop num_lt_1024].
  rewrite (float_lt_1024_exact _ p (10 + 10 + 10) Hd ltac:(lia) Hx3).
  destruct (Z.pos p <? 2 ^ (10 + 10 + 10 + 10)) eqn:H3.
  { cbn [num_format_f mbind result_bind].
    rewrite (format_f_dyadic _ p (10 + 10 + 10) Hd ltac:(lia) Hx3).
    by change (1024 ^ Z.of_nat 3) with (2 ^ (10 + 10 + 10)). }
  pose proof (float_div_1024_exact _ p (10 + 10 + 10) Hd ltac:(lia) Hx3) as Hx4.
  cbn [num_div_1024 mbind result_bind format_size_loop num_format_f].
  rewrite (format_f_dyadic _ p (10 + 10 + 10 + 10) Hd ltac:(lia) Hx4).
  by change (1024 ^ Z.of_nat 4) with (2 ^ (10 + 10 + 10 + 10)).
Qed.

(** C6. A byte count is shown on the ladder B, KB, MB, GB, TB: it is
    divided by 1024 until the value is below 1024 or the last unit is
    reached, and the value is written with two decimals before the unit.  For
    every count below 2^53 (binary64 holds these integers, and their
    quotients by powers of 1024, exactly) the text is the exact quotient
    rounded to two decimals; for any number the unit is the first one at
    which the value computed so far is below 1024. *)
Theorem format_size_unit_ladder :
  (forall n : Z, 0 <= n < 2 ^ 53 ->
     format_size (Int n) =
       Ok (two_places n (1024 ^ Z.of_nat (unit_index n)) +:+ ladder !!! unit_index n) /\
     fixed_notation 2 (two_places n (1024 ^ Z.of_nat (unit_index n)))) /\
  (forall (bytes v : pynumber) (k : nat),
     (k <= 4)%nat ->
     divided k bytes = Ok v ->
     (forall j w, (j < k)%nat -> divided j bytes = Ok w -> num_lt_1024 w = false) ->
     ((k < 4)%nat -> num_lt_1024 v = true) ->
     format_size bytes = (s ← num_format_f 2 v; Ok (s +:+ ladder !!! k))) /\
  format_size (Int 1023) = Ok "1023.00B" /\
  format_size (Int 1024) = Ok "1.00KB" /\
  format_size (Int 1048576) = Ok "1.00MB".
Proof.
  split; [|split; [exact format_size_ladder|]].
  - intros n Hn. split; [by apply format_size_exact|].
    apply (fixed_point_notation 2 false). lia.
  - repeat split; vm_compute; reflexivity.
Qed.

(** * The theorems at sample inputs *)

Lemma should_show_process_iff_witness :
  should_show_process (info (sample_process 4 "cargo" [] "stopped" 0 0)) = false /\
  sample_process 4 "cargo" [] "stopped" 0 0 ∉ get_rig_processes sample_processes.
Proof.
  destruct (proj2 (should_show_process_iff
                     (info (sample_process 4 "cargo" [] "stopped" 0 0))))
    as [Hhidden Hout]; [reflexivity | reflexivity | reflexivity |].
  split; [exact Hhidden | by apply Hout].
Defined.

Lemma get_rig_processes_one_entry_per_pid_witness :
  length (filter (fun q => pid q = 3) (get_rig_processes sample_processes)) = 1%nat.
Proof.
  apply (proj2 (proj2 (proj2 (proj2
           (get_rig_processes_one_entry_per_pid sample_processes))))
           (sample_process 3 "agent" ["/root/RIGnew/target/debug/agent"] "running" 1 1)).
  - unfold sample_processes. do 2 right. left.
  - vm_compute. reflexivity.
  - vm_compute. reflexivity.
  - vm_compute. reflexivity.
Defined.

Lemma marker_path_selected_witness :
  sample_process 6 "sh" ["sh"; "-c"; "cd /root/RIGnew && ls"] "sleeping" 0 0
    ∈ get_rig_processes sample_processes.
Proof.
  apply (marker_path_selected sample_processes
           (sample_process 6 "sh" ["sh"; "-c"; "cd /root/RIGnew && ls"] "sleeping" 0 0)
           ["sh"; "-c"; "cd /root/RIGnew && ls"]).
  - unfold sample_processes. do 5 right. left.
  - reflexivity.
  - exists "cd /root/RIGnew && ls". split; [do 2 right; left|].
    exists "cd ", " && ls". reflexivity.
  - vm_compute. reflexivity.
  - vm_compute. repeat constructor; set_solver.
Defined.

Lemma format_size_unit_ladder_witness :
  format_size (Int 1610612736) = Ok ("1.50" +:+ "GB").
Proof.
  apply (proj1 (proj1 format_size_unit_ladder 1610612736 ltac:(split; [lia | reflexivity]))).
Defined.

Lemma format_price_cases_witness :
  format_price 0.005 = "$" +:+ format_f 8 0.005 /\
  format_price 0.5 = "$" +:+ format_f 4 0.5 /\
  format_price 5.5 = "$" +:+ format_f 2 5.5.
Proof.
  split; [|split].
  - apply (proj1 (proj2 (format_price_cases 0.005))); reflexivity.
  - apply (proj1 (proj2 (proj2 (format_price_cases 0.5)))); reflexivity.
  - apply (proj1 (proj2 (proj2 (proj2 (format_price_cases 5.5))))); reflexivity.
Defined.

Lemma percentage_zero_semantics_witness :
  format_percentage (-0.0) = "N/A" /\
  format_percentage 3.2 = "+" +:+ format_f 2 3.2 +:+ "%" /\
  format_change (-0.0) = Style_RESET_ALL +:+ "0.00%" +:+ Style_RESET_ALL.
Proof.
  split; [|split].
  - apply (proj1 percentage_zero_semantics). reflexivity.
  - apply (proj1 (proj2 percentage_zero_semantics)). reflexivity.
  - apply (proj1 (proj2 (proj2 (proj2 percentage_zero_semantics)))). reflexivity.
Defined.

Lemma malformed_price_is_zero_witness :
  (exists signals s,
     read_signals sample_reader [] = Ok signals /\
     signals !! 1%nat = Some s /\ price s = 0%float /\ name s = Some "FOO") /\
  (exists signals s,
     read_signals sample_odd_reader [] = Ok signals /\
     signals !! 0%nat = Some s /\ price s = 0%float /\ name s = Some "BAZ").
Proof.
  split.
  - destruct (malformed_price_is_zero sample_reader) as (signals & Hread & _ & Hrow).
    destruct (Hrow 1%nat
                (sample_row "2025-01-03T00:00:00" "FOO" "F" "abc" "1" "SELL") "abc")
      as (s & Hs & Hprice & _ & Hname & _).
    + reflexivity.
    + vm_compute. reflexivity.
    + vm_compute. reflexivity.
    + exists signals, s. by rewrite Hname.
  - destruct (malformed_price_is_zero sample_odd_reader) as (signals & Hread & _ & Hrow).
    destruct (Hrow 0%nat
                (sample_row "2025-01-04T00:00:00" "BAZ" "Z" (file_separator +:+ "1.5")
                            "1" "BUY")
                (file_separator +:+ "1.5"))
      as (s & Hs & Hprice & _ & Hname & _).
    + reflexivity.
    + vm_compute. reflexivity.
    + vm_compute. reflexivity.
    + exists signals, s. by rewrite Hname.
Defined.

Lemma valid_price_lost_with_bad_change_witness :
  (exists signals s,
     read_signals sample_reader [] = Ok signals /\
     signals !! 2%nat = Some s /\ price s = 0%float /\ change_24h s = 0%float) /\
  (exists signals s,
     read_signals sample_odd_reader [] = Ok signals /\
     signals !! 1%nat = Some s /\ price s = 0%float /\ change_24h s = 0%float).
Proof.
  split.
  - apply (valid_price_lost_with_bad_change sample_reader 2
             (sample_row "2025-01-03T00:00:00" "BAR" "B" "1.5" "n/a" "NEW LISTING")
             1.5 ValueError).
    + reflexivity.
    + vm_compute. reflexivity.
    + vm_compute. reflexivity.
  - apply (valid_price_lost_with_bad_change sample_odd_reader 1
             (sample_row "2025-01-04T00:00:00" "QUX" "Q" ("1.5" +:+ no_break_space)
                         (file_separator +:+ "3.2") "BUY")
             1.5 ValueError).
    + reflexivity.
    + vm_compute. reflexivity.
    + vm_compute. reflexivity.
Defined.

Lemma missing_file_keeps_loop_running_witness :
  main 3 (fun _ => Raise FileNotFoundError) =
  ([Print "Error: analysis_results.csv not found"; Sleep 5;
    Print "Error: analysis_results.csv not found"; Sleep 5;
    Print "Error: analysis_results.csv not found"; Sleep 5], Ok tt).
Proof.
  apply (proj2 (proj2 (proj2 missing_file_keeps_loop_running)) 3%nat
           (fun _ => Raise FileNotFoundError)).
  intros j _. discriminate.
Defined.

Lemma latest_signal_per_token_witness :
  exists latest (i : nat) (w : signal),
    latest_signals sample_reader = Ok latest /\
    filter (fun v => name v = Some "FOO") latest = [w] /\
    (forall (j : nat) (v : signal) signals,
       read_signals sample_reader [] = Ok signals ->
       signals !! j = Some v -> name v = Some "FOO" ->
       cell_ltb (timestamp v) (timestamp w) = true \/
       (timestamp v = timestamp w /\ (i <= j)%nat)).
Proof.
  destruct (latest_signal_per_token sample_reader) as (signals & Hread & Htotal & Hspec).
  destruct Htotal as [latest Hlatest].
  { vm_compute in Hread. injection Hread as <-.
    repeat constructor; by eexists. }
  destruct (Hspec latest Hlatest) as [_ Hwin].
  destruct (Hwin {| timestamp := Some "2025-01-02T00:00:00"; name := Some "FOO";
                    symbol := Some "F"; price := 0.5; change_24h := 3.2;
                    recommendation := Some "BUY" |})
    as (i & w & _ & _ & Hfilter & Hmax).
  { vm_compute in Hread. injection Hread as <-. left. }
  exists latest, i, w. split; [done|]. split; [done|].
  intros j v signals' Hread'. rewrite Hread in Hread'. injection Hread' as <-.
  apply Hmax.
Defined.

(** * Further properties of the two programs *)

(** ** More on floating-point comparisons *)

Lemma cmp_lt_eq_cases (e1 e2 : Z) (m1 m2 : positive) :
  match e1 ?= e2 with
  | Lt => Lt
  | Gt => Gt
  | Eq => Pos.compare_cont Eq m1 m2
  end = Eq <-> e1 = e2 /\ m1 = m2.
Proof.
  rewrite compare_cont_Eq.
  destruct (Z.compare_spec e1 e2); rewrite ?Pos.compare_eq_iff;
    split; try discriminate; try lia; intuition congruence.
Qed.

Lemma cmp_gt_eq_cases (e1 e2 : Z) (m1 m2 : positive) :
  match e1 ?= e2 with
  | Lt => Gt
  | Gt => Lt
  | Eq => CompOpp (Pos.compare_cont Eq m1 m2)
  end = Eq <-> e1 = e2 /\ m1 = m2.
Proof.
  rewrite compare_cont_Eq.
  destruct (Z.compare_spec e1 e2); [|split; [discriminate | lia]..].
  destruct (Pos.compare_spec m1 m2); simpl; split; try discriminate; try lia;
    intuition congruence.
Qed.

(** [a < b] and [b <= c] give [a < c]. *)
Lemma SFltb_leb_trans (x y z : spec_float) :
  SFltb x y = true -> SFleb y z = true -> SFltb x z = true.
Proof.
  intros Hxy Hyz. unfold SFleb in Hyz.
  destruct (SFcompare y z) as [[| |]|] eqn:Hc; try discriminate.
  - assert (Heq : SFcompare x z = SFcompare x y).
    { revert Hc. clear.
      destruct x as [[]|[]| |[] mx ex], y as [[]|[]| |[] my ey], z as [[]|[]| |[] mz ez];
        simpl; try discriminate; try reflexivity.
      - intros [= Hc]. apply cmp_gt_eq_cases in Hc as [-> ->]. reflexivity.
      - intros [= Hc]. apply cmp_lt_eq_cases in Hc as [-> ->]. reflexivity. }
    unfold SFltb in *. by rewrite Heq.
  - apply (SFltb_trans x y z Hxy). unfold SFltb. by rewrite Hc.
Qed.

Lemma float_ltb_leb_trans (x y z : float) :
  PrimFloat.ltb x y = true -> PrimFloat.leb y z = true -> PrimFloat.ltb x z = true.
Proof. rewrite !FloatAxioms.ltb_spec, FloatAxioms.leb_spec. apply SFltb_leb_trans. Qed.

Lemma float_ltb_leb (x y : float) :
  PrimFloat.ltb x y = true -> PrimFloat.leb x y = true.
Proof.
  rewrite FloatAxioms.ltb_spec, FloatAxioms.leb_spec. unfold SFltb, SFleb.
  by destruct (SFcompare (Prim2SF x) (Prim2SF y)) as [[]|].
Qed.

(** Nothing is both at least a positive number and zero or negative. *)
Lemma float_leb_pos (c x : float) :
  PrimFloat.ltb 0 c = true -> PrimFloat.leb c x = true ->
  PrimFloat.eqb x 0 = false /\ PrimFloat.ltb x 0 = false.
Proof.
  intros Hc Hcx.
  assert (Hx : PrimFloat.ltb 0 x = true) by by apply (float_ltb_leb_trans 0 c x).
  split; [by apply float_gt_ne | by apply float_ltb_asym].
Qed.

Lemma float_neg_not_geq (c x : float) :
  PrimFloat.ltb 0 c = true -> PrimFloat.ltb x 0 = true -> PrimFloat.leb c x = false.
Proof.
  intros Hc Hx. destruct (PrimFloat.leb c x) eqn:Hcx; [|done].
  destruct (float_leb_pos c x Hc Hcx) as [_ H]. congruence.
Qed.

(** ** [format_market_cap] *)

(** The unit of a market cap: none at zero, billions from 10^9, millions
    from 10^6, and thousands for everything else, which includes values below
    1000 and negative values. *)
Theorem format_market_cap_cases (market_cap : float) :
  (PrimFloat.eqb market_cap 0 = true -> format_market_cap market_cap = "No data") /\
  (PrimFloat.leb 1000000000 market_cap = true ->
   format_market_cap market_cap = "$" +:+ format_f 2 (market_cap / 1000000000) +:+ "B") /\
  (PrimFloat.leb 1000000000 market_cap = false ->
   PrimFloat.leb 1000000 market_cap = true ->
   format_market_cap market_cap = "$" +:+ format_f 2 (market_cap / 1000000) +:+ "M") /\
  (PrimFloat.eqb market_cap 0 = false ->
   PrimFloat.leb 1000000 market_cap = false ->
   format_market_cap market_cap = "$" +:+ format_f 2 (market_cap / 1000) +:+ "K") /\
  (PrimFloat.ltb market_cap 0 = true ->
   format_market_cap market_cap = "$" +:+ format_f 2 (market_cap / 1000) +:+ "K").
Proof.
  assert (H9 : PrimFloat.ltb 0 1000000000 = true) by reflexivity.
  assert (H6 : PrimFloat.ltb 0 1000000 = true) by reflexivity.
  assert (H69 : PrimFloat.ltb 1000000 1000000000 = true) by reflexivity.
  assert (Hsmall : PrimFloat.eqb market_cap 0 = false ->
                   PrimFloat.leb 1000000 market_cap = false ->
                   format_market_cap market_cap
                   = "$" +:+ format_f 2 (market_cap / 1000) +:+ "K").
  { intros Hz H6'. unfold format_market_cap. rewrite Hz, H6'.
    destruct (PrimFloat.leb 1000000000 market_cap) eqn:H9'; [|done].
    pose proof (float_ltb_leb_trans 1000000 1000000000 market_cap H69 H9') as Hlt.
    apply float_ltb_leb in Hlt. congruence. }
  unfold format_market_cap. repeat split.
  - by intros ->.
  - intros H. destruct (float_leb_pos 1000000000 market_cap H9 H) as [-> _]. by rewrite H.
  - intros H9' H. destruct (float_leb_pos 1000000 market_cap H6 H) as [-> _]. by rewrite H9', H.
  - exact Hsmall.
  - intros Hneg. apply Hsmall; [by apply float_lt_ne | by apply (float_neg_not_geq 1000000)].
Qed.

Lemma format_market_cap_cases_witness :
  format_market_cap 1500000000 = "$" +:+ format_f 2 (1500000000 / 1000000000) +:+ "B" /\
  format_market_cap 2500000 = "$" +:+ format_f 2 (2500000 / 1000000) +:+ "M" /\
  format_market_cap 500 = "$" +:+ format_f 2 (500 / 1000) +:+ "K" /\
  format_market_cap (-2000000000) = "$" +:+ format_f 2 (-2000000000 / 1000) +:+ "K".
Proof.
  split; [|split; [|split]].
  - apply (proj1 (proj2 (format_market_cap_cases 1500000000))). reflexivity.
  - apply (proj1 (proj2 (proj2 (format_market_cap_cases 2500000)))); reflexivity.
  - apply (proj1 (proj2 (proj2 (proj2 (format_market_cap_cases 500))))); reflexivity.
  - apply (proj2 (proj2 (proj2 (proj2 (format_market_cap_cases (-2000000000)))))).
    reflexivity.
Defined.

(** ** The table of signals *)

Lemma emit_then {B} (ev : event) (k : io B) :
  (emit ev ≫= fun _ => k) = (ev :: fst k, snd k).
Proof. unfold emit. by rewrite io_bind_ok. Qed.

Lemma display_signal_complete (s : signal) :
  complete s -> display_signal s = ([Print (signal_line s)], Ok tt).
Proof.
  intros [[n Hn] [r Hr]]. unfold display_signal, signal_line.
  destruct (colour_and_change s) as [color change_str].
  rewrite Hn, Hr. reflexivity.
Qed.

Lemma display_signal_incomplete (s : signal) :
  ~ complete s -> display_signal s = ([], Raise TypeError).
Proof.
  intros Hs. unfold display_signal.
  destruct (colour_and_change s) as [color change_str].
  destruct (name s) as [n|] eqn:Hn; [|reflexivity].
  destruct (recommendation s) as [r|] eqn:Hr; [|reflexivity].
  destruct Hs. unfold complete. rewrite Hn, Hr. by split.
Qed.


Lemma display_signals_stops (l : list signal) (k : nat) (s : signal) :
  l !! k = Some s -> ~ complete s -> Forall complete (take k l) ->
  display_signals l = (map (fun s => Print (signal_line s)) (take k l), Raise TypeError).
Proof.
  revert k. induction l as [|x l IH]; intros k Hk Hs Hall; [done|].
  destruct k as [|k].
  - injection Hk as ->. cbn [display_signals take map].
    by rewrite (display_signal_incomplete s Hs).
  - cbn [take] in Hall. apply Forall_cons in Hall as [Hx Hall].
    cbn [display_signals take map].
    rewrite (display_signal_complete x Hx), io_bind_ok.
    by rewrite (IH k Hk Hs Hall).
Qed.

Lemma display_table_unfold (latest : list signal) :
  display_table latest =
  (table_header ++ fst (display_signals (take 20 latest)) ++
     match snd (display_signals (take 20 latest)) with
     | Ok _ => [table_footer]
     | Raise _ => []
     end,
   snd (display_signals (take 20 latest))).
Proof.
  unfold display_table, print. rewrite !emit_then.
  destruct (display_signals (take 20 latest)) as [rows [[]|e]].
  - rewrite io_bind_ok. reflexivity.
  - rewrite io_bind_raise. cbn [fst snd]. by rewrite app_nil_r.
Qed.


(** A signal without a name or without a recommendation (a short CSV row)
    among the first 20 cuts the table: the lines before it are printed, then
    the error line, and no footer; the refresh still returns. *)
Theorem display_stops_at_incomplete_signal
    (reader : list row) (latest : list signal) (k : nat) (s : signal) :
  latest_signals reader = Ok latest ->
  (k < 20)%nat -> latest !! k = Some s -> ~ complete s ->
  Forall complete (take k latest) ->
  read_and_display_signals (Ok reader) =
    (table_header ++ map (fun s => Print (signal_line s)) (take k latest)
       ++ [ErrorLine TypeError], Ok tt).
Proof.
  intros Hlatest Hk Hs Hbad Hall.
  assert (Hrows : display_signals (take 20 latest) =
            (map (fun s => Print (signal_line s)) (take k latest), Raise TypeError)).
  { rewrite (display_signals_stops (take 20 latest) k s).
    - by rewrite take_take, Nat.min_l by lia.
    - by rewrite lookup_take_lt.
    - done.
    - by rewrite take_take, Nat.min_l by lia. }
  unfold read_and_display_signals, display_body, lift.
  rewrite io_bind_ok, Hlatest, io_bind_ok, display_table_unfold, Hrows.
  cbn [fst snd app is_Exception]. by rewrite app_nil_r, <- app_assoc.
Qed.

(** ** Rows without a timestamp *)

Lemma insert_desc_None (x : signal) (y : signal) (l : list signal) :
  timestamp x = None \/ timestamp y = None ->
  insert_desc x (y :: l) = Raise TypeError.
Proof.
  intros H. cbn [insert_desc].
  destruct (timestamp x), (timestamp y); try reflexivity. by destruct H.
Qed.

Lemma sort_None_raises (l : list signal) :
  (2 <= length l)%nat ->
  (exists s, s ∈ l /\ timestamp s = None) ->
  sort_by_timestamp_desc l = Raise TypeError.
Proof.
  induction l as [|x l IH]; intros Hlen (s & Hs & Hnone); [simpl in Hlen; lia|].
  cbn [sort_by_timestamp_desc].
  destruct (sort_by_timestamp_desc l) as [sorted|e] eqn:Hsort.
  - cbn [mbind result_bind].
    destruct (sort_spec l sorted Hsort) as (_ & Hperm & _).
    destruct sorted as [|y sorted].
    { apply Permutation_nil_l in Hperm as <-. simpl in Hlen. lia. }
    apply insert_desc_None.
    apply elem_of_cons in Hs as [->|Hs]; [by left|].
    destruct (sort_ok_keys l _ Hsort) as [Hone|Hall].
    + destruct l as [|z [|? ?]]; [by apply elem_of_nil in Hs| |simpl in Hone; lia].
      apply list_elem_of_singleton in Hs as ->.
      apply Permutation_length in Hperm as Hlen'.
      destruct sorted; [|done]. apply Permutation_singleton_l in Hperm as [= <-].
      by right.
    + rewrite Forall_forall in Hall. destruct (Hall s Hs) as [k Hk]. congruence.
  - by rewrite (sort_raises l e Hsort).
Qed.

Lemma read_signals_timestamps (reader : list row) (signals : list signal) (r : row) :
  read_signals reader [] = Ok signals ->
  r ∈ reader -> exists s, s ∈ signals /\ timestamp s = get (r !! "timestamp") (Some "").
Proof.
  intros Hread Hr.
  destruct (read_signals_spec reader []) as (signals' & Hread' & Hall).
  rewrite Hread in Hread'. injection Hread' as ->.
  apply list_elem_of_lookup in Hr as [i Hi].
  destruct (Forall2_lookup_l _ _ _ _ _ Hall Hi) as (s & Hs & Hrow).
  exists s. split; [by eapply list_elem_of_lookup_2|].
  destruct (parse_numbers_total r) as (p & c & Hpc).
  rewrite (read_row_numbers r p c Hpc) in Hrow. by injection Hrow as <-.
Qed.

(** One row without a timestamp (a short row, when the timestamp is not
    the first column) among two rows or more blanks the display: the sort
    raises, the refresh prints the error line alone, and returns. *)
Theorem missing_timestamp_blanks_the_display (reader : list row) (r : row) :
  (2 <= length reader)%nat ->
  r ∈ reader -> r !! "timestamp" = Some None ->
  read_and_display_signals (Ok reader) = ([ErrorLine TypeError], Ok tt).
Proof.
  intros Hlen Hr Hts.
  destruct (read_signals_spec reader []) as (signals & Hread & Hall).
  destruct (read_signals_timestamps reader signals r Hread Hr) as (s & Hs & Hnone).
  rewrite Hts in Hnone.
  assert (Hsort : sort_by_timestamp_desc signals = Raise TypeError).
  { apply sort_None_raises; [|by exists s].
    by rewrite <- (Forall2_length _ _ _ Hall). }
  unfold read_and_display_signals, display_body, lift.
  rewrite io_bind_ok, (latest_signals_unfold reader signals Hread), Hsort.
  reflexivity.
Qed.

(** ** The order of the table *)

Lemma StronglySorted_sublist {A} (R : A -> A -> Prop) (l1 l2 : list A) :
  l1 `sublist_of` l2 -> StronglySorted R l2 -> StronglySorted R l1.
Proof.
  induction 1 as [|x l1 l2 Hsub IH|x l1 l2 Hsub IH]; intros Hsorted; [done| |].
  - apply StronglySorted_inv in Hsorted as [Hl2 Hx].
    constructor; [by apply IH|].
    rewrite Forall_forall in Hx |- *. intros y Hy. apply Hx.
    by eapply elem_of_sublist.
  - apply StronglySorted_inv in Hsorted as [Hl2 _]. by apply IH.
Qed.

(** The latest signals are in descending order of timestamp: no entry has
    a timestamp below that of an entry after it.  Every one of them is a row
    that was read, and every token of the rows has its entry. *)
Theorem latest_signals_sorted (reader : list row) (signals latest : list signal) :
  read_signals reader [] = Ok signals ->
  latest_signals reader = Ok latest ->
  StronglySorted (fun a b => not_older a b) latest /\
  (forall s, s ∈ latest -> s ∈ signals) /\
  (forall s, s ∈ signals -> name s ∈ name <$> latest).
Proof.
  intros Hread. rewrite (latest_signals_unfold reader signals Hread).
  destruct (sort_by_timestamp_desc signals) as [sorted|e] eqn:Hsort; [|done].
  intros [= <-]. rewrite latest_loop_first_by.
  destruct (sort_spec signals sorted Hsort) as (Hsorted & Hperm & _).
  split; [|split].
  - eapply StronglySorted_sublist; [apply first_by_sublist | exact Hsorted].
  - intros s Hs%elem_of_first_by. by rewrite <- Hperm.
  - intros s Hs. rewrite <- Hperm in Hs.
    destruct (first_by_key name sorted s Hs) as (w & Hw & Hname).
    apply list_elem_of_fmap. by exists w.
Qed.

(** ** Stopping the signal display *)

Lemma refresh_interrupted :
  read_and_display_signals (Raise KeyboardInterrupt) = ([], Raise KeyboardInterrupt).
Proof. reflexivity. Qed.

Lemma main_loop_interrupted
    (iterations : nat) (files : nat -> result (list row)) (start i : nat) :
  (start <= i < start + iterations)%nat ->
  files i = Raise KeyboardInterrupt ->
  (forall j, (start <= j < i)%nat -> files j <> Raise KeyboardInterrupt) ->
  main_loop iterations files start =
  (flat_map (fun j => fst (read_and_display_signals (files j)) ++ [Sleep 5])
            (seq start (i - start)), Raise KeyboardInterrupt).
Proof.
  revert start. induction iterations as [|n IH]; intros start Hi Hint Hbefore; [lia|].
  cbn [main_loop].
  destruct (decide (start = i)) as [->|Hne].
  - rewrite Hint, refresh_interrupted, io_bind_raise, Nat.sub_diag. reflexivity.
  - assert (Hret := refresh_returns (files start) (Hbefore start ltac:(lia))).
    destruct (read_and_display_signals (files start)) as [out r] eqn:Hrd.
    cbn [snd] in Hret. subst r.
    rewrite io_bind_ok. unfold emit. rewrite io_bind_ok.
    rewrite (IH (S start)) by (try done; intros; try apply Hbefore; lia).
    replace (i - start)%nat with (S (i - S start)) by lia.
    cbn [seq flat_map fst snd]. by rewrite Hrd, <- app_assoc.
Qed.

(** An interrupt is the way out of the signal display: the refreshes
    before it ran and slept as usual, the program then prints
    ["Monitoring stopped by user"] and ends normally. *)
Theorem interrupt_stops_signal_display
    (iterations : nat) (files : nat -> result (list row)) (i : nat) :
  (i < iterations)%nat ->
  files i = Raise KeyboardInterrupt ->
  (forall j, (j < i)%nat -> files j <> Raise KeyboardInterrupt) ->
  run_signals iterations files =
  (flat_map (fun j => fst (read_and_display_signals (files j)) ++ [Sleep 5]) (seq 0 i)
     ++ [Print (newline +:+ "Monitoring stopped by user")], Ok tt).
Proof.
  intros Hi Hint Hbefore. unfold run_signals, main.
  rewrite (main_loop_interrupted iterations files 0 i) by (try done; intros; try apply Hbefore; lia).
  by rewrite Nat.sub_0_r.
Qed.

(** ** The selector as a filter *)

Lemma filter_all {A} (P : A -> Prop) `{forall x, Decision (P x)} (l : list A) :
  (forall x, x ∈ l -> P x) -> filter P l = l.
Proof.
  induction l as [|x l IH]; intros Hl; [done|].
  rewrite filter_cons_True by (apply Hl; left).
  f_equal. apply IH. intros y Hy. apply Hl. by right.
Qed.

Lemma visit_selected (p : process) :
  visit [] p = if selected p
               then (if relevant p && specific_executable p then [p; p] else [p])
               else [].
Proof.
  unfold visit, selected.
  by destruct (should_show_process (info p)), (relevant p), (specific_executable p).
Qed.

(** Processes have distinct pids within one enumeration.  The selector then
    returns exactly the processes that pass the visibility test and one of
    the two checks, each once, in the order of the enumeration. *)
Theorem get_rig_processes_is_filter (process_iter : list process) :
  NoDup (pid <$> process_iter) ->
  get_rig_processes process_iter = filter (fun p => selected p = true) process_iter.
Proof.
  rewrite get_rig_processes_first_seen. unfold first_seen.
  induction process_iter as [|p l IH]; intros Hnd; [done|].
  rewrite fmap_cons, NoDup_cons in Hnd. destruct Hnd as [Hp Hnd].
  assert (Hrest : filter (fun q => pid q ≠ pid p) (first_by pid (candidates l))
                  = filter (fun p => selected p = true) l).
  { rewrite (IH Hnd). apply filter_all.
    intros q [_ Hq]%list_elem_of_filter Heq. apply Hp.
    apply list_elem_of_fmap. by exists q. }
  rewrite candidates_cons, visit_selected, filter_cons.
  destruct (selected p);
    [|cbn [app]; rewrite decide_False by done; by apply IH].
  rewrite decide_True by done.
  destruct (relevant p && specific_executable p); cbn [app first_by]; f_equal.
  - rewrite filter_cons_False by (intros H; by apply H).
    by rewrite list_filter_filter_l by done.
  - done.
Qed.

Lemma lower_char_idem (c : ascii) : lower_char (lower_char c) = lower_char c.
Proof.
  destruct c as [[] [] [] [] [] [] [] []]; reflexivity.
Qed.

Lemma lower_idem (s : string) : lower (lower s) = lower s.
Proof.
  induction s as [|c s IH]; [done|]. cbn [lower]. by rewrite lower_char_idem, IH.
Qed.

(** A process without a command line (psutil gives [None] or an empty
    list: kernel threads, processes of other users) is selected by its name
    alone: python, rig, rust or cargo in the name in any case of letters, and
    the visibility test. *)
Theorem no_cmdline_selected_by_name (p : process) :
  info_cmdline (info p) = None \/ info_cmdline (info p) = Some [] ->
  selected p =
    should_show_process (info p) &&
    (contains "python" (lower (info_name (info p))) ||
     contains "rig" (lower (info_name (info p))) ||
     contains "rust" (lower (info_name (info p))) ||
     contains "cargo" (lower (info_name (info p)))).
Proof.
  intros Hcmd. unfold selected, relevant, specific_executable.
  rewrite !lower_idem.
  destruct Hcmd as [-> | ->]; cbn [cmdline_any orb]; by rewrite !orb_false_r.
Qed.

(** ** The name shown for a process *)

Lemma len_app (a b : string) : len (a +:+ b) = (len a + len b)%nat.
Proof.
  induction a as [|c a IH]; [done|].
  change (String c a +:+ b) with (String c (a +:+ b)).
  cbn [len]. rewrite IH. by destruct (continuation c).
Qed.

Lemma len_str_take (n : nat) (s : string) : len (str_take n s) = Nat.min n (len s).
Proof.
  revert n. induction s as [|c s IH]; intros n; [by destruct n|].
  cbn [str_take len]. destruct (continuation c) eqn:Hc.
  - cbn [len]. by rewrite Hc, IH.
  - destruct n as [|n]; [done|]. cbn [len]. rewrite Hc, IH. lia.
Qed.

(** The name built from a command line fits the 40 columns of the table:
    a text of at most 40 characters is kept, a longer one is cut to 37
    characters and three dots unless its last two path segments after [".../"]
    fit. *)
Theorem shorten_fits (name : string) :
  (len (shorten name) <= 40)%nat /\
  ((len name <= 40)%nat -> shorten name = name) /\
  ((40 < len name)%nat ->
   (1 < length (split "/" name))%nat ->
   let short := ".../" +:+ join "/" (drop (length (split "/" name) - 2) (split "/" name)) in
   shorten name = if (40 <? len short)%nat
                  then str_take 37 short +:+ "..." else short) /\
  ((40 < len name)%nat ->
   (length (split "/" name) <= 1)%nat ->
   shorten name = str_take 37 name +:+ "...").
Proof.
  assert (Hcut : forall s, (40 < len s)%nat -> len (str_take 37 s +:+ "...") = 40%nat).
  { intros s Hs. rewrite len_app, len_str_take.
    change (len "...") with 3%nat. lia. }
  unfold shorten. repeat split.
  - destruct (Nat.ltb_spec 40 (len name)) as [Hlong|Hshort]; [|done].
    match goal with |- context [if (40 <? len ?s)%nat then _ else ?s] =>
      destruct (Nat.ltb_spec 40 (len s)) as [H|H]; [by rewrite Hcut | done] end.
  - intros Hshort. by rewrite (proj2 (Nat.ltb_ge _ _) Hshort).
  - intros Hlong Hparts.
    by rewrite (proj2 (Nat.ltb_lt _ _) Hlong), (proj2 (Nat.ltb_lt _ _) Hparts).
  - intros Hlong Hparts.
    by rewrite (proj2 (Nat.ltb_lt _ _) Hlong), (proj2 (Nat.ltb_ge _ _) Hparts),
               (proj2 (Nat.ltb_lt _ _) Hlong).
Qed.

(** ** One pass of the sampler *)

Lemma measure_got (timestamp : string) (proc : process) (pr : probes) (r : log_row) :
  measure timestamp proc pr = Got r ->
  log_pid r = pid proc /\ log_timestamp r = timestamp /\
  probe_cpu_percent pr = Got (log_cpu_percent r) /\
  probe_memory_percent pr = Got (log_memory_percent r) /\
  (exists rss, probe_rss pr = Got rss /\ format_size (Int rss) = Ok (log_memory_used r)) /\
  probe_num_threads pr = Got (log_threads r) /\
  probe_status pr = Got (log_status r) /\
  ((exists c cs cmdline, probe_cmdline pr = Got (c :: cs) /\
      probe_cmdline_again pr = Got cmdline /\
      log_name r = shorten (join " " cmdline)) \/
   (probe_cmdline pr = Got [] /\ probe_name pr = Got (log_name r))).
Proof.
  unfold measure.
  destruct (probe_cpu_percent pr) as [cpu| |]; [|done..].
  destruct (probe_memory_percent pr) as [mem| |]; [|done..].
  destruct (probe_rss pr) as [rss| |]; [|done..].
  cbn [mbind attempt_bind].
  destruct (format_size (Int rss)) as [used|] eqn:Hused; [|done].
  destruct (probe_num_threads pr) as [threads| |]; [|done..].
  destruct (probe_status pr) as [status| |]; [|done..].
  destruct (probe_cmdline pr) as [[|c cs]| |]; [| |done..]; cbn [of_result mbind attempt_bind].
  - destruct (probe_name pr) as [name| |]; [|done..].
    cbn [mbind attempt_bind]. intros [= <-]. cbn.
    repeat split; try done; eauto.
  - destruct (probe_cmdline_again pr) as [cmdline| |]; [|done..].
    cbn [mbind attempt_bind]. intros [= <-]. cbn.
    repeat split; try done; [by exists rss|]. left. by exists c, cs, cmdline.
Qed.

Lemma sample_all_app (timestamp : string) (sample : process -> probes)
    (l1 l2 : list process) (st : pass_state) :
  sample_all timestamp sample (l1 ++ l2) st =
  match sample_all timestamp sample l1 st with
  | (st', Ok _) => sample_all timestamp sample l2 st'
  | failed => failed
  end.
Proof.
  revert st. induction l1 as [|p l1 IH]; intros st; [done|].
  cbn [app sample_all].
  destruct (measure timestamp p (sample p)); [apply IH | apply IH | done].
Qed.

(** A process that has gone, or that denies access, when it is measured
    leaves no trace in the pass: the result is that of the pass without it. *)
Theorem vanished_process_is_skipped
    (timestamp : string) (sample : process -> probes)
    (before after : list process) (proc : process) (e : psutil_error) (st : pass_state) :
  measure timestamp proc (sample proc) = Psutil e ->
  sample_all timestamp sample (before ++ proc :: after) st =
  sample_all timestamp sample (before ++ after) st.
Proof.
  intros Hgone. rewrite !sample_all_app.
  destruct (sample_all timestamp sample before st) as [st' [[]|e']]; [|done].
  cbn [sample_all]. by rewrite Hgone.
Qed.

Lemma data_rows_app (a b : list perf_event) :
  data_rows (a ++ b) = data_rows a ++ data_rows b.
Proof. unfold data_rows. apply omap_app. Qed.

Lemma sample_all_rows (timestamp : string) (sample : process -> probes)
    (l : list process) (st st' : pass_state) (outcome : result unit) :
  sample_all timestamp sample l st = (st', outcome) ->
  exists rows,
    data_rows (events st') = data_rows (events st) ++ rows /\
    log_pid <$> rows `sublist_of` pid <$> l /\
    Forall (fun r => log_timestamp r = timestamp) rows /\
    active_processes st' - active_processes st =
      Z.of_nat (length (filter (fun r => PrimFloat.ltb 0 (log_cpu_percent r)
                                         || PrimFloat.ltb 0 (log_memory_percent r) = true)
                               rows)).
Proof.
  revert st. induction l as [|p l IH]; intros st Hrun.
  - injection Hrun as <- <-. exists []. rewrite app_nil_r.
    repeat split; try done. simpl. lia.
  - cbn [sample_all] in Hrun.
    destruct (measure timestamp p (sample p)) as [r|e|e] eqn:Hm.
    + destruct (IH _ Hrun) as (rows & Hrows & Hsub & Hts & Hactive).
      destruct (measure_got _ _ _ _ Hm) as (Hpid & Htime & _).
      exists (r :: rows). split; [|split; [|split]].
      * rewrite Hrows. cbn [record_process events]. rewrite data_rows_app.
        by rewrite <- app_assoc.
      * rewrite !fmap_cons, Hpid. by apply sublist_skip.
      * by constructor.
      * rewrite filter_cons. cbn [record_process active_processes] in Hactive.
        destruct (PrimFloat.ltb 0 (log_cpu_percent r)
                  || PrimFloat.ltb 0 (log_memory_percent r)).
        -- rewrite decide_True by done. cbn [length]. lia.
        -- rewrite decide_False by done. lia.
    + destruct (IH _ Hrun) as (rows & Hrows & Hsub & Hts & Hactive).
      exists rows. repeat split; try done. rewrite fmap_cons. by apply sublist_cons.
    + injection Hrun as <- <-. exists []. rewrite app_nil_r.
      repeat split; try done; [apply sublist_nil_l | simpl; lia].
Qed.

Lemma pass_unfold (log_file : string) (inp : pass_input) :
  exists st outcome,
    sample_all (now inp) (sample inp) (get_rig_processes (process_iter inp))
      {| total_cpu := 0; total_memory := 0; active_processes := 0;
         events := pass_header inp |} = (st, outcome) /\
    pass log_file inp =
      match outcome with
      | Ok _ => (events st ++ pass_footer log_file st ++
                   (if interrupted inp then [] else [PSleep 60]),
                 if interrupted inp then Raise KeyboardInterrupt else Ok tt)
      | Raise e => (events st, Raise e)
      end.
Proof.
  unfold pass.
  destruct (sample_all _ _ _ _) as [st outcome] eqn:Hrun.
  exists st, outcome. split; [done|]. by destruct outcome.
Qed.

Lemma data_rows_pass (log_file : string) (inp : pass_input) (st : pass_state)
    (outcome : result unit) :
  data_rows
    (fst match outcome with
         | Ok _ => (events st ++ pass_footer log_file st ++
                      (if interrupted inp then [] else [PSleep 60]),
                    if interrupted inp then Raise KeyboardInterrupt else Ok tt)
         | Raise e => (events st, Raise e)
         end) = data_rows (events st).
Proof.
  destruct outcome as [u|e]; [|done]. cbn [fst].
  rewrite !data_rows_app.
  assert (data_rows (pass_footer log_file st) = []) as -> by reflexivity.
  destruct (interrupted inp); by rewrite !app_nil_r.
Qed.

(** At most one row per pid in a pass: the rows that a pass writes are for
    processes that the selector returned, in its order, one row at most for
    each, all with the timestamp of the pass. *)
Theorem pass_writes_one_row_per_pid (log_file : string) (inp : pass_input) :
  let rows := data_rows (fst (pass log_file inp)) in
  NoDup (log_pid <$> rows) /\
  log_pid <$> rows `sublist_of` pid <$> get_rig_processes (process_iter inp) /\
  Forall (fun r => log_timestamp r = now inp) rows.
Proof.
  destruct (pass_unfold log_file inp) as (st & outcome & Hrun & ->).
  cbn zeta. rewrite data_rows_pass.
  destruct (sample_all_rows _ _ _ _ _ _ Hrun) as (rows & Hrows & Hsub & Hts & _).
  assert (Hstart : data_rows (pass_header inp) = []) by reflexivity.
  cbn [events] in Hrows. rewrite Hstart in Hrows. cbn [app] in Hrows. rewrite Hrows.
  split; [|by split].
  eapply sublist_NoDup; [|exact Hsub].
  rewrite get_rig_processes_first_seen. apply first_by_NoDup.
Qed.

(** The count under the table is the number of rows of the pass with a
    CPU or memory share above zero, so it is never more than the number of
    rows. *)
Theorem pass_counts_active_rows (log_file : string) (inp : pass_input) :
  snd (pass log_file inp) = Ok tt ->
  let rows := data_rows (fst (pass log_file inp)) in
  PPrint ("Active Processes: " +:+ format_int (Z.of_nat (length (active_rows rows))))
    ∈ fst (pass log_file inp) /\
  (length (active_rows rows) <= length rows)%nat.
Proof.
  destruct (pass_unfold log_file inp) as (st & outcome & Hrun & ->).
  cbn zeta. rewrite data_rows_pass.
  destruct (sample_all_rows _ _ _ _ _ _ Hrun) as (rows & Hrows & _ & _ & Hactive).
  assert (Hstart : data_rows (pass_header inp) = []) by reflexivity.
  cbn [events active_processes] in Hrows, Hactive.
  rewrite Hstart in Hrows. cbn [app] in Hrows. rewrite Hrows.
  destruct outcome as [[]|e]; [|done]. intros _.
  split; [|apply length_filter].
  cbn [fst]. apply elem_of_app. right. apply elem_of_app. left.
  unfold pass_footer. apply elem_of_cons. right. apply elem_of_cons. left.
  do 3 f_equal. unfold active_rows. lia.
Qed.




(** ** The whole run of the sampler *)

Lemma written_app (a b : list perf_event) :
  written (a ++ b) = written a ++ written b.
Proof. unfold written. apply omap_app. Qed.

Lemma sample_all_written (timestamp : string) (sample : process -> probes)
    (l : list process) (st st' : pass_state) (outcome : result unit) :
  sample_all timestamp sample l st = (st', outcome) ->
  written (events st) = Data <$> data_rows (events st) ->
  written (events st') = Data <$> data_rows (events st').
Proof.
  revert st. induction l as [|p l IH]; intros st Hrun Hst.
  - by injection Hrun as <- <-.
  - cbn [sample_all] in Hrun.
    destruct (measure timestamp p (sample p)) as [r|e|e].
    + apply (IH _ Hrun). cbn [record_process events].
      rewrite written_app, data_rows_app, fmap_app, Hst. reflexivity.
    + by apply (IH _ Hrun).
    + by injection Hrun as <- <-.
Qed.

Lemma pass_written (log_file : string) (inp : pass_input) :
  written (fst (pass log_file inp)) = Data <$> data_rows (fst (pass log_file inp)).
Proof.
  destruct (pass_unfold log_file inp) as (st & outcome & Hrun & ->).
  pose proof (sample_all_written _ _ _ _ _ _ Hrun eq_refl) as Hst.
  destruct outcome as [[]|e]; [|done]. cbn [fst].
  rewrite !written_app, !data_rows_app, !fmap_app, Hst.
  by destruct (interrupted inp).
Qed.

Lemma passes_written (iterations : nat) (log_file : string)
    (inputs : nat -> pass_input) (i : nat) :
  written (fst (passes iterations log_file inputs i)) =
  Data <$> data_rows (fst (passes iterations log_file inputs i)).
Proof.
  revert i. induction iterations as [|n IH]; intros i; [done|].
  cbn [passes]. pose proof (pass_written log_file (inputs i)) as Hpass.
  destruct (pass log_file (inputs i)) as [out [[]|e]]; [|done].
  specialize (IH (S i)). destruct (passes n log_file inputs (S i)) as [out' r].
  cbn [fst] in *. by rewrite written_app, data_rows_app, fmap_app, Hpass, IH.
Qed.

(** The log file starts with the header, written once, and everything
    after it is a row of a process. *)
Theorem log_file_has_one_header
    (iterations : nat) (started : string) (inputs : nat -> pass_input) :
  written (fst (monitor_performance iterations started inputs)) =
  Header csv_header
    :: (Data <$> data_rows (fst (monitor_performance iterations started inputs))).
Proof.
  unfold monitor_performance.
  pose proof (passes_written iterations (log_path started) inputs 0) as Hpasses.
  destruct (passes iterations (log_path started) inputs 0) as [out [[]|e]];
    [|destruct e]; cbn [fst] in *;
    rewrite ?written_app, ?data_rows_app, ?fmap_app, Hpasses; try reflexivity;
    by rewrite !app_nil_r.
Qed.

Lemma passes_interrupted (iterations : nat) (log_file : string)
    (inputs : nat -> pass_input) (start i : nat) (e : exn) :
  (start <= i < start + iterations)%nat ->
  snd (pass log_file (inputs i)) = Raise e ->
  (forall j, (start <= j < i)%nat -> snd (pass log_file (inputs j)) = Ok tt) ->
  passes iterations log_file inputs start =
  (flat_map (fun j => fst (pass log_file (inputs j))) (seq start (S i - start)), Raise e).
Proof.
  revert start. induction iterations as [|n IH]; intros start Hi Hint Hbefore; [lia|].
  cbn [passes].
  destruct (decide (start = i)) as [->|Hne].
  - destruct (pass log_file (inputs i)) as [out r] eqn:Hpass.
    cbn [snd] in Hint. subst r.
    replace (S i - i)%nat with 1%nat by lia. cbn [seq flat_map].
    by rewrite Hpass, app_nil_r.
  - pose proof (Hbefore start ltac:(lia)) as Hok.
    destruct (pass log_file (inputs start)) as [out r] eqn:Hpass.
    cbn [snd] in Hok. subst r.
    rewrite (IH (S start)) by (try done; intros; try apply Hbefore; lia).
    replace (S i - start)%nat with (S (S i - S start)) by lia.
    cbn [seq flat_map]. by rewrite Hpass.
Qed.

(** An interrupt ends the sampler cleanly: the passes before it ran in
    full, the pass it arrives in stops there, and the program prints the two
    closing lines with the path of the log and returns. *)
Theorem interrupt_stops_sampler
    (iterations : nat) (started : string) (inputs : nat -> pass_input) (i : nat) :
  (i < iterations)%nat ->
  snd (pass (log_path started) (inputs i)) = Raise KeyboardInterrupt ->
  (forall j, (j < i)%nat -> snd (pass (log_path started) (inputs j)) = Ok tt) ->
  monitor_performance iterations started inputs =
  (opening (log_path started)
     ++ flat_map (fun j => fst (pass (log_path started) (inputs j))) (seq 0 (S i))
     ++ closing (log_path started), Ok tt).
Proof.
  intros Hi Hint Hbefore. unfold monitor_performance.
  rewrite (passes_interrupted iterations (log_path started) inputs 0 i KeyboardInterrupt)
    by (try done; intros; try apply Hbefore; lia).
  by rewrite Nat.sub_0_r.
Qed.

(** ** The numeric fields of a row *)

(** The two numeric fields are kept together or dropped together: the row
    is stored with the price and the change as converted when both
    conversions succeed, and with 0 and 0 as soon as one of them fails, so a
    malformed price also discards a valid change. *)
Theorem numeric_fields_all_or_nothing (r : row) :
  exists s,
    read_row r = Ok s /\
    (price s, change_24h s) =
      match float_field r "price", float_field r "change_24h" with
      | Ok p, Ok c => (p, c)
      | _, _ => (0%float, 0%float)
      end.
Proof.
  destruct (float_field r "price") as [p|e] eqn:Hp.
  - destruct (float_field r "change_24h") as [c|e] eqn:Hc.
    + eexists. split; [apply read_row_numbers; by apply parse_numbers_both | done].
    + eexists. split; [apply read_row_numbers; by eapply parse_numbers_change_fails | done].
  - eexists. split; [apply read_row_numbers; by eapply parse_numbers_price_fails | done].
Qed.

(** A file without some of the expected columns: a missing price or change
    column counts as 0 and leaves the other number as converted, and a missing
    text column counts as the empty string. *)
Theorem missing_columns_default (r : row) :
  exists s,
    read_row r = Ok s /\
    (r !! "price" = None ->
     forall c, float_field r "change_24h" = Ok c -> price s = 0%float /\ change_24h s = c) /\
    (r !! "change_24h" = None ->
     forall p, float_field r "price" = Ok p -> price s = p /\ change_24h s = 0%float) /\
    (r !! "timestamp" = None -> timestamp s = Some "") /\
    (r !! "name" = None -> name s = Some "") /\
    (r !! "symbol" = None -> symbol s = Some "") /\
    (r !! "recommendation" = None -> recommendation s = Some "").
Proof.
  destruct (parse_numbers_total r) as (p & c & Hpc).
  eexists. split; [by apply read_row_numbers|]. cbn [price change_24h timestamp name symbol recommendation].
  unfold cell in *.
  split; [|split; [|split; [|split; [|split]]]]; try (by intros ->).
  - intros Hmissing c' Hc'.
    assert (Hp : float_field r "price" = Ok 0%float)
      by (unfold float_field, cell in *; by rewrite Hmissing).
    rewrite (parse_numbers_both r _ _ Hp Hc') in Hpc. by injection Hpc as <- <-.
  - intros Hmissing p' Hp'.
    assert (Hc : float_field r "change_24h" = Ok 0%float)
      by (unfold float_field, cell in *; by rewrite Hmissing).
    rewrite (parse_numbers_both r _ _ Hp' Hc) in Hpc. by injection Hpc as <- <-.
Qed.

(** ** Numbers outside the expected range *)

(** A negative price is written with 8 decimals whatever its size, the
    minus sign after the dollar sign. *)
Theorem format_price_negative (price : float) :
  PrimFloat.ltb price 0 = true ->
  format_price price = "$" +:+ format_f 8 price /\
  String.prefix "-" (format_f 8 price) = true.
Proof.
  intros Hneg. split; [|by apply float_lt_zero_negative].
  unfold format_price. rewrite (float_lt_ne price 0 Hneg).
  assert (H01 : PrimFloat.ltb 0 0.01 = true) by reflexivity.
  by rewrite (float_ltb_trans price 0 0.01 Hneg H01).
Qed.

(** [float] accepts the text [nan].  Such a value compares false with
    everything: it is shown as ["$nan"] in the price column and as a change of
    ["0.00%"], and the two unused formatters give ["nan%"] and ["$nanK"]. *)
Theorem not_a_number_display (x : float) :
  Prim2SF x = S754_nan ->
  format_price x = "$nan" /\
  format_change x = Style_RESET_ALL +:+ "0.00%" +:+ Style_RESET_ALL /\
  format_percentage x = "nan%" /\
  format_market_cap x = "$nanK".
Proof.
  intros Hnan.
  assert (Heq : forall y, PrimFloat.eqb x y = false)
    by (intros y; by rewrite FloatAxioms.eqb_spec, Hnan).
  assert (Hlt : forall y, PrimFloat.ltb x y = false)
    by (intros y; by rewrite FloatAxioms.ltb_spec, Hnan).
  assert (Hgt : forall y, PrimFloat.ltb y x = false).
  { intros y. rewrite FloatAxioms.ltb_spec, Hnan. unfold SFltb, SFcompare.
    by destruct (Prim2SF y). }
  assert (Hge : forall y, PrimFloat.leb y x = false).
  { intros y. rewrite FloatAxioms.leb_spec, Hnan. unfold SFleb, SFcompare.
    by destruct (Prim2SF y). }
  assert (Hfmt : forall places, format_f places x = "nan")
    by (intros places; unfold format_f; by rewrite Hnan).
  assert (Hdiv : forall places y, format_f places (x / y) = "nan").
  { intros places y. unfold format_f. by rewrite div_spec, Hnan. }
  unfold format_price, format_change, format_percentage, format_market_cap.
  by rewrite !Heq, !Hlt, !Hgt, !Hge, !Hfmt, !Hdiv.
Qed.

(** ** The range of the number before the unit *)

Lemma round_half_even_bounds (a b : Z) :
  0 < b -> a / b <= round_half_even a b <= a / b + 1.
Proof.
  intros Hb. unfold round_half_even.
  destruct (2 * (a mod b) ?= b); [destruct (Z.even (a / b))|..]; lia.
Qed.

Lemma unit_index_bounds (n : Z) :
  ((unit_index n < 4)%nat -> n < 1024 * 1024 ^ Z.of_nat (unit_index n)) /\
  ((0 < unit_index n)%nat -> 1024 ^ Z.of_nat (unit_index n) <= n).
Proof.
  unfold unit_index.
  destruct (Z.ltb_spec n 1024) as [H0|H0]; [split; [intros _|intros ?]; lia|].
  destruct (Z.ltb_spec n (1024 ^ 2)) as [H1|H1]; [split; intros _; lia|].
  destruct (Z.ltb_spec n (1024 ^ 3)) as [H2|H2]; [split; intros _; lia|].
  destruct (Z.ltb_spec n (1024 ^ 4)) as [H3|H3]; [split; intros _; lia|].
  split; [intros ?; lia | intros _; lia].
Qed.

(** The number in front of KB, MB and GB lies between 1.00 and 1024.00,
    and 1024.00 itself appears, by the rounding to two decimals, just below
    the next unit; in front of B it is below 1024 and in front of TB at least
    1.00. *)
Theorem format_size_number_range (n : Z) :
  0 <= n < 2 ^ 53 ->
  let k := unit_index n in
  let hundredths := round_half_even (100 * n) (1024 ^ Z.of_nat k) in
  format_size (Int n) = Ok (fixed_point 2 hundredths +:+ ladder !!! k) /\
  ((k < 4)%nat -> hundredths <= 102400) /\
  ((0 < k)%nat -> 100 <= hundredths) /\
  format_size (Int 1048575) = Ok "1024.00KB".
Proof.
  intros Hn k hundredths.
  pose proof (format_size_exact n Hn) as Hexact. unfold two_places in Hexact.
  split; [exact Hexact|].
  assert (Hpow : 0 < 1024 ^ Z.of_nat k) by (apply Z.pow_pos_nonneg; lia).
  pose proof (round_half_even_bounds (100 * n) _ Hpow) as [Hlow Hup].
  destruct (unit_index_bounds n) as [Hlt Hge]. fold k in Hlt, Hge.
  split; [|split; [|by vm_compute]].
  - intros Hk. specialize (Hlt Hk).
    assert (100 * n / 1024 ^ Z.of_nat k < 102400); [|unfold hundredths; lia].
    apply Z.div_lt_upper_bound; lia.
  - intros Hk. specialize (Hge Hk).
    assert (100 <= 100 * n / 1024 ^ Z.of_nat k); [|unfold hundredths; lia].
    apply Z.div_le_lower_bound; lia.
Qed.

(** ** The totals, and the exceptions that are not caught *)

Lemma sample_all_totals (timestamp : string) (sample : process -> probes)
    (l : list process) (st st' : pass_state) (outcome : result unit) :
  sample_all timestamp sample l st = (st', outcome) ->
  exists rows,
    data_rows (events st') = data_rows (events st) ++ rows /\
    total_cpu st' = fold_left (fun acc r => acc + log_cpu_percent r)%float rows (total_cpu st) /\
    total_memory st' =
      fold_left (fun acc r => acc + log_memory_percent r)%float rows (total_memory st).
Proof.
  revert st. induction l as [|p l IH]; intros st Hrun.
  - injection Hrun as <- <-. exists []. by rewrite app_nil_r.
  - cbn [sample_all] in Hrun.
    destruct (measure timestamp p (sample p)) as [r|e|e].
    + destruct (IH _ Hrun) as (rows & Hrows & Hcpu & Hmem).
      exists (r :: rows). split; [|by split].
      rewrite Hrows. cbn [record_process events]. rewrite data_rows_app.
      by rewrite <- app_assoc.
    + by apply IH.
    + injection Hrun as <- <-. exists []. by rewrite app_nil_r.
Qed.

(** The two totals under the table are the sums of the CPU and memory
    shares of the rows of the pass, added from zero in the order of the rows. *)
Theorem pass_totals_sum_the_rows (log_file : string) (inp : pass_input) :
  snd (pass log_file inp) = Ok tt ->
  let rows := data_rows (fst (pass log_file inp)) in
  PPrint ("Total CPU Usage: "
          +:+ format_f 1 (fold_left (fun acc r => acc + log_cpu_percent r)%float rows 0%float)
          +:+ "%") ∈ fst (pass log_file inp) /\
  PPrint ("Total Memory Usage: "
          +:+ format_f 1 (fold_left (fun acc r => acc + log_memory_percent r)%float rows 0%float)
          +:+ "%") ∈ fst (pass log_file inp).
Proof.
  destruct (pass_unfold log_file inp) as (st & outcome & Hrun & ->).
  cbn zeta. rewrite data_rows_pass.
  destruct (sample_all_totals _ _ _ _ _ _ Hrun) as (rows & Hrows & Hcpu & Hmem).
  assert (Hstart : data_rows (pass_header inp) = []) by reflexivity.
  cbn [events total_cpu total_memory] in Hrows, Hcpu, Hmem.
  rewrite Hstart in Hrows. cbn [app] in Hrows. rewrite Hrows, <- Hcpu, <- Hmem.
  destruct outcome as [[]|e]; [|done]. intros _.
  cbn [fst]. unfold pass_footer.
  split; apply elem_of_app; right; apply elem_of_app; left.
  - do 2 (apply elem_of_cons; right). apply elem_of_cons. by left.
  - do 3 (apply elem_of_cons; right). apply elem_of_cons. by left.
Qed.

(** The sampler has no handler for anything else: an exception that is
    neither an error of psutil nor an interrupt ends the program where it is
    raised, after the rows written so far, without the closing lines. *)
Theorem other_exception_ends_sampler
    (iterations : nat) (started : string) (inputs : nat -> pass_input) (i : nat) (e : exn) :
  (i < iterations)%nat ->
  snd (pass (log_path started) (inputs i)) = Raise e ->
  e <> KeyboardInterrupt ->
  (forall j, (j < i)%nat -> snd (pass (log_path started) (inputs j)) = Ok tt) ->
  monitor_performance iterations started inputs =
  (opening (log_path started)
     ++ flat_map (fun j => fst (pass (log_path started) (inputs j))) (seq 0 (S i)),
   Raise e).
Proof.
  intros Hi Hraise He Hbefore. unfold monitor_performance.
  rewrite (passes_interrupted iterations (log_path started) inputs 0 i e)
    by (try done; intros; try apply Hbefore; lia).
  rewrite Nat.sub_0_r. by destruct e.
Qed.

(** * The further properties at sample inputs *)


Lemma display_stops_at_incomplete_signal_witness :
  exists latest,
    latest_signals sample_short_reader = Ok latest /\
    read_and_display_signals (Ok sample_short_reader) =
      (table_header ++ map (fun s => Print (signal_line s)) (take 1 latest)
         ++ [ErrorLine TypeError], Ok tt).
Proof.
  eexists. split; [vm_compute; reflexivity|].
  eapply (display_stops_at_incomplete_signal sample_short_reader _ 1).
  - vm_compute. reflexivity.
  - lia.
  - reflexivity.
  - intros [[n Hn] _]. discriminate Hn.
  - repeat constructor; by eexists.
Defined.

Lemma missing_timestamp_blanks_the_display_witness :
  read_and_display_signals (Ok sample_untimed_reader) = ([ErrorLine TypeError], Ok tt).
Proof.
  apply (missing_timestamp_blanks_the_display sample_untimed_reader untimed_row).
  - simpl. lia.
  - right. left.
  - vm_compute. reflexivity.
Defined.

Lemma latest_signals_sorted_witness :
  exists latest,
    latest_signals sample_reader = Ok latest /\
    StronglySorted (fun a b => not_older a b) latest.
Proof.
  eexists. split; [vm_compute; reflexivity|].
  refine (proj1 (latest_signals_sorted sample_reader _ _ _ _)); vm_compute; reflexivity.
Defined.

Lemma interrupt_stops_signal_display_witness :
  run_signals 5 sample_files =
  (flat_map (fun j => fst (read_and_display_signals (sample_files j)) ++ [Sleep 5]) (seq 0 2)
     ++ [Print (newline +:+ "Monitoring stopped by user")], Ok tt).
Proof.
  apply (interrupt_stops_signal_display 5 sample_files 2).
  - lia.
  - reflexivity.
  - intros [|[|j]] Hj; [discriminate.. | lia].
Defined.

Lemma get_rig_processes_is_filter_witness :
  get_rig_processes sample_processes = filter (fun p => selected p = true) sample_processes.
Proof.
  apply (get_rig_processes_is_filter sample_processes).
  vm_compute. repeat constructor; set_solver.
Defined.

Lemma no_cmdline_selected_by_name_witness :
  selected (sample_process 5 "cargo" [] "stopped" 0.5 0) = true.
Proof.
  exact (eq_trans (no_cmdline_selected_by_name
                     (sample_process 5 "cargo" [] "stopped" 0.5 0) (or_intror eq_refl))
                  eq_refl).
Defined.

Lemma shorten_fits_witness :
  shorten "/root/RIGnew/target/release/crypto-agents --config /etc/agents.toml"
  = ".../etc/agents.toml" /\
  shorten "python3 -m http.server --bind 127.0.0.1 --directory public 8000"
  = "python3 -m http.server --bind 127.0.0...".
Proof.
  split.
  - apply (proj1 (proj2 (proj2
             (shorten_fits "/root/RIGnew/target/release/crypto-agents --config /etc/agents.toml")))).
    + vm_compute. lia.
    + vm_compute. lia.
  - apply (proj2 (proj2 (proj2
             (shorten_fits "python3 -m http.server --bind 127.0.0.1 --directory public 8000")))).
    + vm_compute. lia.
    + vm_compute. lia.
Defined.

Lemma vanished_process_is_skipped_witness :
  sample_all "2025-01-03 00:00:00" sample_probes
    ([sample_process 2 "Python3" ["python3"; "/root/RIGnew/main.py"] "sleeping" 0 0]
       ++ sample_process 3 "agent" ["/root/RIGnew/target/debug/agent"] "running" 1 1
       :: [sample_process 6 "sh" ["sh"; "-c"; "cd /root/RIGnew && ls"] "sleeping" 0 0])
    {| total_cpu := 0; total_memory := 0; active_processes := 0; events := [] |} =
  sample_all "2025-01-03 00:00:00" sample_probes
    ([sample_process 2 "Python3" ["python3"; "/root/RIGnew/main.py"] "sleeping" 0 0]
       ++ [sample_process 6 "sh" ["sh"; "-c"; "cd /root/RIGnew && ls"] "sleeping" 0 0])
    {| total_cpu := 0; total_memory := 0; active_processes := 0; events := [] |}.
Proof.
  apply (vanished_process_is_skipped _ _ _ _ _ NoSuchProcess). reflexivity.
Defined.

Lemma pass_counts_active_rows_witness :
  PPrint "Active Processes: 1" ∈ fst (pass "log.csv" (sample_pass false)).
Proof.
  apply (proj1 (pass_counts_active_rows "log.csv" (sample_pass false)
                  ltac:(vm_compute; reflexivity))).
Defined.


Lemma interrupt_stops_sampler_witness :
  monitor_performance 5 "20250103_000000" sample_passes =
  (opening (log_path "20250103_000000")
     ++ flat_map (fun j => fst (pass (log_path "20250103_000000") (sample_passes j)))
          (seq 0 2)
     ++ closing (log_path "20250103_000000"), Ok tt).
Proof.
  apply (interrupt_stops_sampler 5 "20250103_000000" sample_passes 1).
  - lia.
  - vm_compute. reflexivity.
  - intros [|j] Hj; [vm_compute; reflexivity | lia].
Defined.

Lemma missing_columns_default_witness :
  exists s, read_row priceless_row = Ok s /\ price s = 0%float /\ change_24h s = 2.5%float.
Proof.
  destruct (missing_columns_default priceless_row) as (s & Hs & Hprice & _).
  exists s. split; [exact Hs|].
  apply (Hprice ltac:(vm_compute; reflexivity) 2.5%float ltac:(vm_compute; reflexivity)).
Defined.

Lemma format_price_negative_witness :
  format_price (-5) = "$" +:+ format_f 8 (-5).
Proof.
  apply (proj1 (format_price_negative (-5) eq_refl)).
Defined.

Lemma not_a_number_display_witness :
  float_of_str "nan" = Some nan /\ format_price nan = "$nan".
Proof.
  split; [vm_compute; reflexivity|].
  apply (proj1 (not_a_number_display nan eq_refl)).
Defined.

Lemma format_size_number_range_witness :
  format_size (Int 1023999) = Ok ("1000.00" +:+ "KB").
Proof.
  apply (proj1 (format_size_number_range 1023999 ltac:(split; [lia | reflexivity]))).
Defined.

Lemma pass_totals_sum_the_rows_witness :
  PPrint "Total CPU Usage: 12.5%" ∈ fst (pass "log.csv" (sample_pass false)).
Proof.
  apply (proj1 (pass_totals_sum_the_rows "log.csv" (sample_pass false)
                  ltac:(vm_compute; reflexivity))).
Defined.

Lemma other_exception_ends_sampler_witness :
  snd (monitor_performance 5 "20250103_000000" failing_passes) = Raise OtherException /\
  length (data_rows (fst (monitor_performance 5 "20250103_000000" failing_passes))) = 5%nat.
Proof.
  rewrite (other_exception_ends_sampler 5 "20250103_000000" failing_passes 1 OtherException).
  - split; [reflexivity | vm_compute; reflexivity].
  - lia.
  - vm_compute. reflexivity.
  - discriminate.
  - intros [|j] Hj; [vm_compute; reflexivity | lia].
Defined.
